(** * TrendSensei: the catalog storage layer

    A shallow embedding of the product storage of TrendSensei
    ([src/unnamed/part_000]: the product_id schema, CSV ingestion and the
    in-memory [MemStorage]; [src/unnamed/part_001]: the [MemStorage] of the
    name/brand schema with its aggregation views).

    JavaScript values are modelled as follows: a string is a Rocq [string];
    [undefined] is [None]; a JS number is [jsnum], an exact rational with the
    IEEE special values [NaN] and the two infinities (rounding is not
    modelled); a JS [Map] is a list of its values in insertion order, keyed
    by a field of the value; [Math.random] is a stream of draws threaded
    through the calls that use it. *)

From Stdlib Require Import String Ascii List ZArith QArith Qround Lqa Bool Lia Sorting.Sorted Permutation.
Import ListNotations.
Open Scope string_scope.

(** ** JavaScript primitives *)

Module JS.

(** A JS number. *)
Inductive jsnum : Type :=
| JNum (q : Q)
| JPosInf
| JNegInf
| JNaN.

(** [a + b] *)
Definition add (a b : jsnum) : jsnum :=
  match a, b with
  | JNaN, _ | _, JNaN => JNaN
  | JPosInf, JNegInf | JNegInf, JPosInf => JNaN
  | JPosInf, _ | _, JPosInf => JPosInf
  | JNegInf, _ | _, JNegInf => JNegInf
  | JNum x, JNum y => JNum (x + y)
  end.

(** [-a] *)
Definition neg (a : jsnum) : jsnum :=
  match a with
  | JNum x => JNum (- x)
  | JPosInf => JNegInf
  | JNegInf => JPosInf
  | JNaN => JNaN
  end.

(** [a - b] *)
Definition sub (a b : jsnum) : jsnum := add a (neg b).

Definition qpos (x : Q) : bool := negb (Qle_bool x 0).

(** [a * b] *)
Definition mul (a b : jsnum) : jsnum :=
  match a, b with
  | JNum x, JNum y => JNum (x * y)
  | JNaN, _ | _, JNaN => JNaN
  | JNum x, i | i, JNum x =>
      if Qeq_bool x 0 then JNaN
      else if qpos x then i else neg i
  | JPosInf, JPosInf | JNegInf, JNegInf => JPosInf
  | _, _ => JNegInf
  end.

(** [a / b]: [0 / 0] is [NaN], [x / 0] an infinity. *)
Definition div (a b : jsnum) : jsnum :=
  match a, b with
  | JNaN, _ | _, JNaN => JNaN
  | JNum x, JNum y =>
      if Qeq_bool y 0 then
        (if Qeq_bool x 0 then JNaN
         else if qpos x then JPosInf else JNegInf)
      else JNum (x / y)
  | JNum _, _ => JNum 0
  | i, JNum y =>
      if Qeq_bool y 0 then i
      else if qpos y then i else neg i
  | _, _ => JNaN
  end.

(** [a >= b] and [a <= b]: false as soon as one side is [NaN]. *)
Definition ge (a b : jsnum) : bool :=
  match a, b with
  | JNaN, _ | _, JNaN => false
  | JPosInf, _ | _, JNegInf => true
  | _, JPosInf | JNegInf, _ => false
  | JNum x, JNum y => Qle_bool y x
  end.

Definition le (a b : jsnum) : bool := ge b a.

(** [a > b] *)
Definition gt (a b : jsnum) : bool :=
  match a, b with
  | JNaN, _ | _, JNaN => false
  | JPosInf, JPosInf | JNegInf, JNegInf => false
  | JPosInf, _ | _, JNegInf => true
  | _, JPosInf | JNegInf, _ => false
  | JNum x, JNum y => negb (Qle_bool x y)
  end.

(** JS truthiness of a number: [0] and [NaN] are falsy. *)
Definition truthy (a : jsnum) : bool :=
  match a with
  | JNum x => negb (Qeq_bool x 0)
  | JNaN => false
  | _ => true
  end.

Definition of_Z (z : Z) : jsnum := JNum (inject_Z z).

(** Numeric equality of JS numbers ([NaN] equals nothing). *)
Definition js_eq (a b : jsnum) : Prop :=
  match a, b with
  | JNum x, JNum y => x == y
  | JPosInf, JPosInf | JNegInf, JNegInf => True
  | _, _ => False
  end.

(** [Array.prototype.reduce((sum, x) => sum + f(x), 0)] *)
Definition sum {A} (f : A -> jsnum) (l : list A) : jsnum :=
  fold_left (fun s x => add s (f x)) l (JNum 0).

(** *** Strings *)

Definition is_digit (c : ascii) : bool :=
  let n := nat_of_ascii c in (48 <=? n)%nat && (n <=? 57)%nat.

Definition digit_val (c : ascii) : Z := Z.of_nat (nat_of_ascii c - 48).

Definition is_space (c : ascii) : bool :=
  let n := nat_of_ascii c in
  (n =? 32)%nat || (n =? 9)%nat || (n =? 10)%nat || (n =? 13)%nat.

Fixpoint trim_start (s : string) : string :=
  match s with
  | String c r => if is_space c then trim_start r else s
  | EmptyString => EmptyString
  end.

(** Leading decimal digits: (value, number of digits, rest). *)
Fixpoint digits (s : string) (acc : Z) (n : nat) : Z * nat * string :=
  match s with
  | String c r =>
      if is_digit c then digits r (10 * acc + digit_val c) (S n) else (acc, n, s)
  | EmptyString => (acc, n, EmptyString)
  end.

Definition sign_of (s : string) : Z * string :=
  match s with
  | String "-" r => (-1, r)%Z
  | String "+" r => (1, r)%Z
  | _ => (1%Z, s)
  end.

(** [parseInt(s, 10)] on a defined string: optional sign, decimal digits
    prefix, [NaN] when there is none. *)
Definition parseInt (s : string) : jsnum :=
  let '(sg, r) := sign_of (trim_start s) in
  let '(v, n, _) := digits r 0 0 in
  if (n =? 0)%nat then JNaN else of_Z (sg * v).

(** [parseFloat(s)] on decimal literals: sign, integer digits, an optional
    fraction; [NaN] when no digit is read (exponents and the literal
    [Infinity] are not modelled). *)
Definition parseFloat (s : string) : jsnum :=
  let '(sg, r) := sign_of (trim_start s) in
  let '(iv, n, r1) := digits r 0 0 in
  let '(fv, m, _) :=
    match r1 with
    | String "." r2 => digits r2 0 0
    | _ => (0%Z, 0%nat, r1)
    end in
  if ((n + m) =? 0)%nat then JNaN
  else JNum (inject_Z sg * (inject_Z iv + inject_Z fv / inject_Z (10 ^ Z.of_nat m))).

(** [s.toLowerCase()] on ASCII letters. *)
Definition lower_ascii (c : ascii) : ascii :=
  let n := nat_of_ascii c in
  if (65 <=? n)%nat && (n <=? 90)%nat then ascii_of_nat (n + 32) else c.

Fixpoint toLowerCase (s : string) : string :=
  match s with
  | String c r => String (lower_ascii c) (toLowerCase r)
  | EmptyString => EmptyString
  end.

Fixpoint startsWith (s p : string) : bool :=
  match p, s with
  | EmptyString, _ => true
  | String c p', String d s' => Ascii.eqb c d && startsWith s' p'
  | String _ _, EmptyString => false
  end.

(** [s.includes(q)] *)
Fixpoint includes (s q : string) : bool :=
  startsWith s q ||
  match s with
  | String _ r => includes r q
  | EmptyString => false
  end.

(** JS truthiness of [undefined] or a string. *)
Definition str_truthy (s : option string) : bool :=
  match s with
  | Some EmptyString | None => false
  | Some _ => true
  end.

(** [String(x)] on [undefined] or a string. *)
Definition String_ (s : option string) : string :=
  match s with Some v => v | None => "undefined" end.

(** [Array.prototype.slice(start, end)] for non-negative bounds. *)
Definition slice {A} (l : list A) (start stop : nat) : list A :=
  firstn (stop - start) (skipn start l).

(** [Array.prototype.sort(cmp)]: a stable sort; a later element [y] is
    placed before an earlier [x] only when [cmp(x, y) > 0]. *)
Fixpoint insert_sorted {A} (cmp : A -> A -> jsnum) (x : A) (l : list A) : list A :=
  match l with
  | [] => [x]
  | y :: r =>
      if gt (cmp x y) (JNum 0) then y :: insert_sorted cmp x r
      else x :: y :: r
  end.

Fixpoint sort {A} (cmp : A -> A -> jsnum) (l : list A) : list A :=
  match l with
  | [] => []
  | x :: r => insert_sorted cmp x (sort cmp r)
  end.

End JS.

(** ** The product_id schema and CSV ingestion ([src/unnamed/part_000]) *)

Module Csv.
Import JS.

(** A parsed CSV row, as [csv-parser] emits it: header name to cell text;
    a column absent from the row reads as [undefined]. *)
Definition Row := list (string * string).

Definition field (row : Row) (k : string) : option string :=
  match find (fun kv => String.eqb (fst kv) k) row with
  | Some (_, v) => Some v
  | None => None
  end.

(** The object handed to [insertProductSchema.parse]; the product the store
    keeps is this object ([createProduct] spreads it unchanged).  [date] holds
    the argument of [new Date(row.date)]. *)
Record InsertProduct := mkProduct {
  product_id : option string;
  date : option string;
  title : option string;
  category : option string;
  price : string;
  rating : string;
  reviews : jsnum;
  availability : bool;
  competitor_price : option string;
  promotion_flag : bool;
  estimated_demand : jsnum;
  cost_price : option string;
  profit_margin : string;
  event : option string;
  event_impact : option string;
  ad_spend : option string;
  market_share : option string
}.

(** [row.x?.toLowerCase() === 'true'] *)
Definition bool_field (v : option string) : bool :=
  match v with
  | Some s => String.eqb (toLowerCase s) "true"
  | None => false
  end.

(** [row.x ? String(row.x) : null] *)
Definition opt_field (v : option string) : option string :=
  if str_truthy v then Some (String_ v) else None.

(** [parseInt(row.x, 10)]: [parseInt(undefined)] is [NaN]. *)
Definition int_field (v : option string) : jsnum := parseInt (String_ v).

(** The object literal of [importProductsFromCsv] (lines 122-124 / 231-233). *)
Definition coerce_row (row : Row) : InsertProduct :=
  {| product_id := field row "product_id";
     date := field row "date";
     title := field row "title";
     category := field row "category";
     price := String_ (field row "price");
     rating := String_ (field row "rating");
     reviews := int_field (field row "reviews");
     availability := bool_field (field row "availability");
     competitor_price := opt_field (field row "competitor_price");
     promotion_flag := bool_field (field row "promotion_flag");
     estimated_demand := int_field (field row "estimated_demand");
     cost_price := opt_field (field row "cost_price");
     profit_margin := String_ (field row "profit_margin");
     event :=
       (let e := field row "event" in
        if str_truthy e && negb (String.eqb (String_ e) "NULL") then e else None);
     event_impact := opt_field (field row "event_impact");
     ad_spend := opt_field (field row "ad_spend");
     market_share := opt_field (field row "market_share") |}.

(** Equality of [Map] keys ([product_id], possibly [undefined]). *)
Definition key_eqb (a b : option string) : bool :=
  match a, b with
  | Some x, Some y => String.eqb x y
  | None, None => true
  | _, _ => false
  end.

(** The [products] map of [MemStorage]: its values in insertion order. *)
Definition Store := list InsertProduct.

(** [this.products.set(p.product_id, p)]: replaces the value under an existing
    key in place, or appends a new entry. *)
Definition map_set (m : Store) (p : InsertProduct) : Store :=
  if existsb (fun q => key_eqb (product_id p) (product_id q)) m
  then map (fun q => if key_eqb (product_id p) (product_id q) then p else q) m
  else (m ++ [p])%list.

(** [createProduct] *)
Definition createProduct (m : Store) (p : InsertProduct) : InsertProduct * Store :=
  (p, map_set m p).

(** [MemStorage.searchProducts] (lines 249-251): the query is matched as
    given against the lower-cased title; reading [toLowerCase] of an
    [undefined] title throws, which is [None]. *)
Fixpoint searchProducts (m : Store) (query : string) : option (list InsertProduct) :=
  match m with
  | [] => Some []
  | p :: r =>
      match title p, searchProducts r query with
      | None, _ | _, None => None
      | Some t, Some found =>
          Some (if includes (toLowerCase t) query then p :: found else found)
      end
  end.

(** [getProductCount] *)
Definition getProductCount (m : Store) : nat := length m.

(** How the CSV stream ends: its [end] event, or its [error] event. *)
Inductive stream_end := Ended | Errored.

(** The settled promise. *)
Inductive outcome := Resolved (n : nat) | Rejected.

Section Ingest.

(** [insertProductSchema] accepts or rejects an object; [parse] returns an
    accepted object unchanged and throws on a rejected one. *)
Variable insertProductSchema_ok : InsertProduct -> bool.

Definition parse (o : InsertProduct) : option InsertProduct :=
  if insertProductSchema_ok o then Some o else None.

(** The [try] block of the [data] handler: [None] is the [catch] branch. *)
Definition validate (row : Row) : option InsertProduct := parse (coerce_row row).

(** The row passes validation. *)
Definition passes (row : Row) : bool :=
  match validate row with Some _ => true | None => false end.

(** [productsToInsert] once every [data] event has been handled. *)
Fixpoint collect (rows : list Row) : list InsertProduct :=
  match rows with
  | [] => []
  | r :: rs =>
      match validate r with
      | Some p => p :: collect rs
      | None => collect rs
      end
  end.

(** [MemStorage.importProductsFromCsv]: on [end] every collected product goes
    through [createProduct] in order and the promise resolves with the number
    collected; on [error] the promise rejects and nothing is written. *)
Definition importProductsFromCsv (rows : list Row) (e : stream_end) (m : Store)
  : outcome * Store :=
  let productsToInsert := collect rows in
  match e with
  | Ended =>
      (Resolved (length productsToInsert),
       fold_left (fun s p => snd (createProduct s p)) productsToInsert m)
  | Errored => (Rejected, m)
  end.

End Ingest.

(** Modelled from the spec: the product_id variant of [insertProductSchema]
    (its [products] table is not under [src/]).  Section 4.1: a required
    field that is absent or not coercible rejects the row; identifier,
    date, title and category are required, price, rating and profit margin
    must be decimals, reviews and estimated demand integers. *)
Definition insertProductSchema_ok (o : InsertProduct) : bool :=
  let defined (v : option string) := match v with Some _ => true | None => false end in
  let number (n : jsnum) := match n with JNaN => false | _ => true end in
  defined (product_id o) && defined (date o) && defined (title o)
  && defined (category o)
  && number (parseFloat (price o)) && number (parseFloat (rating o))
  && number (parseFloat (profit_margin o))
  && number (reviews o) && number (estimated_demand o).

End Csv.

(** ** The name/brand schema and its in-memory store ([src/unnamed/part_001]) *)

Module Mem.
Import JS.

(** A row of the [products] table ([src/shared/schema.ts]); the [jsonb]
    columns are objects, kept as their entries. *)
Record Product := mkProduct {
  id : string;
  name : string;
  category : string;
  brand : string;
  description : option string;
  price : string;
  competitorPrices : list (string * jsnum);
  rating : string;
  reviewCount : Z;
  salesVolume : Z;
  profitMargin : string;
  stockLevel : Z;
  locationData : list (string * jsnum);
  launchDate : string;
  trending : bool;
  createdAt : string
}.

(** A row of the [analytics] table. *)
Record Analytics := mkAnalytics {
  a_id : string;
  productId : option string;
  a_date : string;
  sales : Z;
  revenue : string;
  views : Z;
  conversions : Z;
  location : string
}.

(** [ProductWithMetrics]: [{ ...p, salesGrowth, revenueGrowth,
    competitivePosition }]. *)
Record ProductWithMetrics := mkPWM {
  product : Product;
  salesGrowth : jsnum;
  revenueGrowth : jsnum;
  competitivePosition : string
}.

Record CategoryPerformance := mkCP {
  cp_category : string;
  cp_sales : jsnum;
  cp_revenue : jsnum;
  cp_profitMargin : jsnum;
  growth : jsnum
}.

Record DashboardMetrics := mkDM {
  totalRevenue : jsnum;
  dm_revenueGrowth : jsnum;
  totalProducts : nat;
  productGrowth : jsnum;
  avgProfitMargin : jsnum;
  marginGrowth : jsnum;
  avgRating : jsnum;
  ratingGrowth : jsnum
}.

(** The state of a [MemStorage]: the values of its [products] and
    [analytics] maps in insertion order ([Array.from(map.values())]). *)
Record MemState := mkState {
  products : list Product;
  analytics : list Analytics
}.

(** [Math.random()]: the generator's draws, and how many were taken. *)
Record Rng := mkRng { draws : nat -> Q; taken : nat }.

Definition random (g : Rng) : jsnum * Rng :=
  (JNum (draws g (taken g)), mkRng (draws g) (S (taken g))).

(** [xs.map(f)] where [f] calls [Math.random()]. *)
Fixpoint map_rng {A B} (f : A -> Rng -> B * Rng) (l : list A) (g : Rng) : list B * Rng :=
  match l with
  | [] => ([], g)
  | x :: r =>
      let '(y, g1) := f x g in
      let '(ys, g2) := map_rng f r g1 in
      (y :: ys, g2)
  end.

Definition q (n d : Z) : jsnum := JNum (Qmake n (Z.to_pos d)).

(** The filter bag of [getProducts]: each key may be missing. *)
Record Filters := mkFilters {
  f_category : option string;
  f_minPrice : option jsnum;
  f_maxPrice : option jsnum;
  f_minRating : option jsnum;
  f_location : option string
}.

Definition num_truthy (v : option jsnum) : bool :=
  match v with Some n => truthy n | None => false end.

Definition num_of (v : option jsnum) : jsnum :=
  match v with Some n => n | None => JNaN end.

(** [getProducts(limit = 50, offset = 0, filters?)] (lines 83-108). *)
Definition getProducts (st : MemState) (limit offset : nat) (filters : option Filters)
  : list Product :=
  let ps := products st in
  let ps :=
    match filters with
    | None => ps
    | Some f =>
        let ps := if str_truthy (f_category f)
                  then filter (fun p => String.eqb (category p) (String_ (f_category f))) ps
                  else ps in
        let ps := if num_truthy (f_minPrice f)
                  then filter (fun p => ge (parseFloat (price p)) (num_of (f_minPrice f))) ps
                  else ps in
        let ps := if num_truthy (f_maxPrice f)
                  then filter (fun p => le (parseFloat (price p)) (num_of (f_maxPrice f))) ps
                  else ps in
        let ps := if num_truthy (f_minRating f)
                  then filter (fun p => ge (parseFloat (rating p)) (num_of (f_minRating f))) ps
                  else ps in
        if str_truthy (f_location f)
        then filter (fun p =>
               existsb (String.eqb (toLowerCase (String_ (f_location f))))
                       (map fst (locationData p))) ps
        else ps
    end in
  slice ps offset (offset + limit).

(** [getTrendingProducts(limit = 10)] (lines 140-152). *)
Definition getTrendingProducts (st : MemState) (limit : nat) (g : Rng)
  : list ProductWithMetrics * Rng :=
  let ps := slice (sort (fun a b => sub (of_Z (salesVolume b)) (of_Z (salesVolume a)))
                        (filter trending (products st))) 0 limit in
  map_rng (fun p g0 =>
    let '(r1, g1) := random g0 in
    let '(r2, g2) := random g1 in
    (mkPWM p (add (mul r1 (of_Z 50)) (of_Z 10)) (add (mul r2 (of_Z 40)) (of_Z 5)) "leading", g2))
    ps g.

(** [getTopProfitProducts(limit = 10)] (lines 154-165). *)
Definition getTopProfitProducts (st : MemState) (limit : nat) (g : Rng)
  : list ProductWithMetrics * Rng :=
  let ps := slice (sort (fun a b => sub (parseFloat (profitMargin b)) (parseFloat (profitMargin a)))
                        (products st)) 0 limit in
  map_rng (fun p g0 =>
    let '(r1, g1) := random g0 in
    let '(r2, g2) := random g1 in
    (mkPWM p (add (mul r1 (of_Z 30)) (of_Z 5)) (add (mul r2 (of_Z 25)) (of_Z 3)) "profitable", g2))
    ps g.

(** [getUnderperformingProducts(limit = 10)] (lines 167-178). *)
Definition getUnderperformingProducts (st : MemState) (limit : nat) (g : Rng)
  : list ProductWithMetrics * Rng :=
  let ps := slice (sort (fun a b => sub (of_Z (salesVolume a)) (of_Z (salesVolume b)))
                        (products st)) 0 limit in
  map_rng (fun p g0 =>
    let '(r1, g1) := random g0 in
    let '(r2, g2) := random g1 in
    (mkPWM p (neg (add (mul r1 (of_Z 30)) (of_Z 5)))
             (neg (add (mul r2 (of_Z 25)) (of_Z 3))) "needs attention", g2))
    ps g.

(** [Array.from(new Set(xs))]: first occurrences, in order. *)
Fixpoint dedup (seen : list string) (xs : list string) : list string :=
  match xs with
  | [] => []
  | x :: r =>
      if existsb (String.eqb x) seen then dedup seen r else x :: dedup (x :: seen) r
  end.

(** [getCategoryPerformance()] (lines 230-248). *)
Definition getCategoryPerformance (st : MemState) (g : Rng)
  : list CategoryPerformance * Rng :=
  let ps := products st in
  let categories := dedup [] (map category ps) in
  map_rng (fun c g0 =>
    let categoryProducts := filter (fun p => String.eqb (category p) c) ps in
    let sales := sum (fun p => of_Z (salesVolume p)) categoryProducts in
    let revenue := sum (fun p => mul (of_Z (salesVolume p)) (parseFloat (price p))) categoryProducts in
    let pm := div (sum (fun p => parseFloat (profitMargin p)) categoryProducts)
                  (of_Z (Z.of_nat (length categoryProducts))) in
    let '(r, g1) := random g0 in
    (mkCP c sales revenue pm (add (mul r (of_Z 40)) (of_Z 5)), g1))
    categories g.

(** [getDashboardMetrics()] (lines 210-228). *)
Definition getDashboardMetrics (st : MemState) : DashboardMetrics :=
  let ps := products st in
  let an := analytics st in
  let totalRevenue := sum (fun a => parseFloat (revenue a)) an in
  let n := of_Z (Z.of_nat (length ps)) in
  let avgProfitMargin := div (sum (fun p => parseFloat (profitMargin p)) ps) n in
  let avgRating := div (sum (fun p => parseFloat (rating p)) ps) n in
  mkDM totalRevenue (q 123 10) (length ps) (q 87 10) avgProfitMargin (q 21 10)
       avgRating (q 3 10).

(** A category row without its [growth]. *)
Definition cp_key (e : CategoryPerformance) : string * jsnum * jsnum * jsnum :=
  (cp_category e, cp_sales e, cp_revenue e, cp_profitMargin e).

End Mem.

(** ** Sample CSV rows (the scenario of the spec's section 8) *)

Module Samples.
Import Csv.

Definition rowA1 : Row :=
  [("product_id", "A1"); ("date", "2024-01-01"); ("title", "Widget");
   ("category", "Tools"); ("price", "100"); ("rating", "4.0"); ("reviews", "12");
   ("estimated_demand", "30"); ("profit_margin", "20")].

(** The same identifier, re-priced. *)
Definition rowA1b : Row :=
  [("product_id", "A1"); ("date", "2024-01-02"); ("title", "Widget");
   ("category", "Tools"); ("price", "120"); ("rating", "4.0"); ("reviews", "12");
   ("estimated_demand", "30"); ("profit_margin", "20")].

Definition rowA2 : Row :=
  [("product_id", "A2"); ("date", "2024-01-01"); ("title", "Gadget");
   ("category", "Tools"); ("price", "50"); ("rating", "3.5"); ("reviews", "4");
   ("estimated_demand", "10"); ("profit_margin", "40")].

(** A malformed row: no price column. *)
Definition row_bad : Row :=
  [("product_id", "A3"); ("date", "2024-01-01"); ("title", "Broken");
   ("category", "Tools"); ("rating", "2.0"); ("reviews", "1");
   ("estimated_demand", "5"); ("profit_margin", "10")].

(** A row whose optional cells hold the literal [NULL]. *)
Definition row_null : Row :=
  [("product_id", "B7"); ("date", "2024-01-01"); ("title", "Lamp");
   ("category", "Home"); ("price", "30"); ("rating", "4.5"); ("reviews", "8");
   ("estimated_demand", "15"); ("profit_margin", "25");
   ("competitor_price", "NULL"); ("event", "NULL")].

(** A product of the name/brand schema. *)
Definition lamp : Mem.Product :=
  {| Mem.id := "p1"; Mem.name := "Desk Lamp"; Mem.category := "Home";
     Mem.brand := "Lumo"; Mem.description := None; Mem.price := "5";
     Mem.competitorPrices := []; Mem.rating := "4.5"; Mem.reviewCount := 8;
     Mem.salesVolume := 120; Mem.profitMargin := "25"; Mem.stockLevel := 40;
     Mem.locationData := []; Mem.launchDate := "2024-01-01";
     Mem.trending := true; Mem.createdAt := "2024-01-01" |}.

Definition kettle : Mem.Product :=
  {| Mem.id := "p2"; Mem.name := "Kettle"; Mem.category := "Home";
     Mem.brand := "Boil"; Mem.description := None; Mem.price := "20";
     Mem.competitorPrices := []; Mem.rating := "3.5"; Mem.reviewCount := 2;
     Mem.salesVolume := 30; Mem.profitMargin := "10"; Mem.stockLevel := 5;
     Mem.locationData := []; Mem.launchDate := "2024-01-01";
     Mem.trending := false; Mem.createdAt := "2024-01-01" |}.

(** A generator whose n-th draw is n/10. *)
Definition rng0 : Mem.Rng := Mem.mkRng (fun n => inject_Z (Z.of_nat n) / 10) 0.

End Samples.

(** ** More of the product_id storage ([src/unnamed/part_000]) *)

Module CsvStore.
Import JS Csv.

(** [getProduct(id)]: [this.products.get(id)]. *)
Definition getProduct (m : Store) (id : string) : option InsertProduct :=
  find (fun p => key_eqb (product_id p) (Some id)) m.

(** [getProductsByCategory(category)]: [p.category === category]. *)
Definition getProductsByCategory (m : Store) (c : string) : list InsertProduct :=
  filter (fun p => key_eqb (category p) (Some c)) m.

(** [ProductWithMetrics] of this storage: growth fields are the literal 0. *)
Record ProductWithMetrics := mkPWM {
  product : InsertProduct;
  salesGrowth : jsnum;
  revenueGrowth : jsnum;
  competitivePosition : string
}.

Definition with_metrics (pos : string) (p : InsertProduct) : ProductWithMetrics :=
  mkPWM p (JNum 0) (JNum 0) pos.

(** [b.event_impact ? parseFloat(b.event_impact) : 0] *)
Definition impact (p : InsertProduct) : jsnum :=
  if str_truthy (event_impact p) then parseFloat (String_ (event_impact p)) else JNum 0.

(** [MemStorage.getTrendingProducts(limit = 10)] (lines 214-217). *)
Definition getTrendingProducts (m : Store) (limit : nat) : list ProductWithMetrics :=
  map (with_metrics "leading")
      (slice (sort (fun a b => sub (impact b) (impact a)) m) 0 limit).

(** [MemStorage.getTopProfitProducts(limit = 10)] (lines 218-221). *)
Definition getTopProfitProducts (m : Store) (limit : nat) : list ProductWithMetrics :=
  map (with_metrics "profitable")
      (slice (sort (fun a b => sub (parseFloat (profit_margin b)) (parseFloat (profit_margin a))) m)
             0 limit).

(** [MemStorage.getUnderperformingProducts(limit = 10)] (lines 222-225). *)
Definition getUnderperformingProducts (m : Store) (limit : nat) : list ProductWithMetrics :=
  map (with_metrics "needs attention")
      (slice (sort (fun a b => sub (estimated_demand a) (estimated_demand b)) m) 0 limit).

(** [seed()] (lines 161-176): [file] is the content of [data/products.csv]
    with how its stream ends, [None] when the file does not exist.  A
    rejected import rejects [seed] and leaves the store as it was. *)
Definition seed (ok : InsertProduct -> bool) (m : Store)
  (file : option (list Row * stream_end)) : Store :=
  if (getProductCount m =? 0)%nat then
    match file with
    | None => m
    | Some (rows, e) => snd (importProductsFromCsv ok rows e m)
    end
  else m.

(** A string with an ASCII capital letter. *)
Fixpoint has_upper (s : string) : bool :=
  match s with
  | String c r =>
      let n := nat_of_ascii c in ((65 <=? n)%nat && (n <=? 90)%nat) || has_upper r
  | EmptyString => false
  end.

End CsvStore.

(** ** More of the name/brand in-memory storage ([src/unnamed/part_001]) *)

Module MemMore.
Import JS Mem.

(** [searchProducts(query)] (lines 282-289). *)
Definition searchProducts (st : MemState) (query : string) : list Product :=
  let lowerQuery := toLowerCase query in
  filter (fun p => includes (toLowerCase (name p)) lowerQuery
                   || includes (toLowerCase (category p)) lowerQuery
                   || includes (toLowerCase (brand p)) lowerQuery)
         (products st).

(** [getProductsByCategory(category)] (lines 136-138). *)
Definition getProductsByCategory (st : MemState) (c : string) : list Product :=
  filter (fun p => String.eqb (category p) c) (products st).

Record GeographicData := mkGeo {
  g_location : string;
  g_sales : jsnum;
  g_revenue : jsnum;
  conversionRate : jsnum
}.

(** [Math.floor] *)
Definition floor (a : jsnum) : jsnum :=
  match a with JNum x => JNum (inject_Z (Qfloor x)) | i => i end.

(** [getGeographicData()] (lines 250-259); the fields of each row draw
    [Math.random()] in the order they are written. *)
Definition getGeographicData (g : Rng) : list GeographicData * Rng :=
  map_rng (fun location g0 =>
    let '(r1, g1) := random g0 in
    let '(r2, g2) := random g1 in
    let '(r3, g3) := random g2 in
    (mkGeo location (floor (add (mul r1 (of_Z 50000)) (of_Z 10000)))
                    (floor (add (mul r2 (of_Z 1000000)) (of_Z 200000)))
                    (add (mul r3 (of_Z 10)) (of_Z 2)), g3))
    ["Mumbai"; "Delhi"; "Bangalore"; "Chennai"; "Kolkata"; "Pune"] g.

(** A row of [chat_messages]; [timestamp] is its [getTime()] value. *)
Record ChatMessage := mkChat {
  c_id : string;
  userId : option string;
  message : string;
  response : string;
  timestamp : Z
}.

Record InsertChatMessage := mkInsertChat {
  ic_userId : option string;
  ic_message : string;
  ic_response : string
}.

(** [getChatMessages(userId, limit = 50)] (lines 262-267) over the values of
    the [chatMessages] map; [m.userId === userId] fails on a null user. *)
Definition getChatMessages (msgs : list ChatMessage) (uid : string) (limit : nat)
  : list ChatMessage :=
  slice (sort (fun a b => sub (of_Z (timestamp b)) (of_Z (timestamp a)))
              (filter (fun m => Csv.key_eqb (userId m) (Some uid)) msgs)) 0 limit.

(** [createChatMessage] (lines 269-279): [id] is the fresh [randomUUID()],
    [now] the [getTime()] of [new Date()]; a fresh key is appended. *)
Definition createChatMessage (msgs : list ChatMessage) (ins : InsertChatMessage)
  (id : string) (now : Z) : ChatMessage * list ChatMessage :=
  let m := mkChat id (if str_truthy (ic_userId ins) then ic_userId ins else None)
                  (ic_message ins) (ic_response ins) now in
  (m, (msgs ++ [m])%list).

(** A row of [users] ([src/shared/schema.ts]). *)
Record User := mkUser {
  u_id : string;
  email : string;
  password : string;
  firstName : string;
  lastName : string;
  businessName : option string;
  u_location : option string;
  subscriptionTier : string;
  u_createdAt : string
}.

(** The body accepted by [insertUserSchema]. *)
Record InsertUser := mkInsertUser {
  i_email : string;
  i_password : string;
  i_firstName : string;
  i_lastName : string;
  i_businessName : option string;
  i_location : option string
}.

(** [getUserByEmail(email)] (lines 55-57): the first user with that email. *)
Definition getUserByEmail (us : list User) (e : string) : option User :=
  find (fun u => String.eqb (email u) e) us.

(** [createUser] (lines 59-71): [id] is the fresh [randomUUID()], [now] the
    creation date; a fresh key is appended. *)
Definition createUser (us : list User) (iu : InsertUser) (id now : string)
  : User * list User :=
  let u := mkUser id (i_email iu) (i_password iu) (i_firstName iu) (i_lastName iu)
                  (if str_truthy (i_businessName iu) then i_businessName iu else None)
                  (if str_truthy (i_location iu) then i_location iu else None)
                  "free" now in
  (u, (us ++ [u])%list).

(** The answer of an authentication route. *)
Inductive auth_response :=
| AuthOk (u : User)
| AuthError (status : Z) (msg : string).

(** [POST /api/auth/signup] ([src/server/routes.ts], lines 10-25) on a body
    that [insertUserSchema] accepted. *)
Definition signup (us : list User) (iu : InsertUser) (id now : string)
  : auth_response * list User :=
  match getUserByEmail us (i_email iu) with
  | Some _ => (AuthError 400 "User already exists", us)
  | None => let '(u, us') := createUser us iu id now in (AuthOk u, us')
  end.

(** [POST /api/auth/login] (lines 27-41). *)
Definition login (us : list User) (e pw : string) : auth_response :=
  match getUserByEmail us e with
  | Some u => if String.eqb (password u) pw then AuthOk u
              else AuthError 401 "Invalid credentials"
  | None => AuthError 401 "Invalid credentials"
  end.

End MemMore.

(** ** More samples: an event row, an account, a chat message *)

Module MoreSamples.
Import Csv MemMore.

(** A row with an event and its impact. *)
Definition rowA4 : Row :=
  [("product_id", "A4"); ("date", "2024-01-03"); ("title", "Drill");
   ("category", "Tools"); ("price", "80"); ("rating", "4.2"); ("reviews", "9");
   ("estimated_demand", "20"); ("profit_margin", "15");
   ("event", "Diwali"); ("event_impact", "1.5")].

Definition ada : InsertUser :=
  mkInsertUser "ada@example.com" "s3cret" "Ada" "Lovelace" None (Some "Pune").

Definition msg_old : ChatMessage := mkChat "m1" (Some "u1") "hi" "hello" 100.

Definition ask : InsertChatMessage := mkInsertChat (Some "u1") "what sells?" "lamps".

(** A generator that always draws 1/2. *)
Definition rng_half : Mem.Rng := Mem.mkRng (fun _ => 1 # 2) 0.

End MoreSamples.

(** ** Facts about the in-memory upsert *)

Module CsvFacts.
Import JS Csv.

Definition key := product_id.

Lemma key_eqb_true a b : key_eqb a b = true <-> a = b.
Proof.
  destruct a, b; simpl; split; intro H; try congruence.
  - apply String.eqb_eq in H; congruence.
  - apply String.eqb_eq; congruence.
Qed.

Lemma key_eqb_false a b : key_eqb a b = false <-> a <> b.
Proof.
  rewrite <- not_true_iff_false, key_eqb_true; tauto.
Qed.


(** The last product of [l] under key [k]. *)
Fixpoint last_for (k : option string) (l : list InsertProduct) : option InsertProduct :=
  match l with
  | [] => None
  | p :: r =>
      match last_for k r with
      | Some q => Some q
      | None => if key_eqb (key p) k then Some p else None
      end
  end.

(** Every entry of [m] replaced by the last product of [l] with its key. *)
Definition overwrite (m : Store) (l : list InsertProduct) : Store :=
  map (fun q => match last_for (key q) l with Some p => p | None => q end) m.

Definition ingest_store (l : list InsertProduct) (m : Store) : Store :=
  fold_left (fun s p => snd (createProduct s p)) l m.

Lemma last_for_key k l p : last_for k l = Some p -> key p = k.
Proof.
  induction l as [|x r IH]; simpl; [discriminate|].
  destruct (last_for k r) eqn:E; [intro H; inversion H; subst; auto|].
  destruct (key_eqb (key x) k) eqn:K; [|discriminate].
  intro H; inversion H; subst. apply key_eqb_true; exact K.
Qed.

Lemma last_for_app k l1 l2 :
  last_for k (l1 ++ l2) =
  match last_for k l2 with Some p => Some p | None => last_for k l1 end.
Proof.
  induction l1 as [|x r IH]; simpl.
  - destruct (last_for k l2); reflexivity.
  - rewrite IH. destruct (last_for k l2); reflexivity.
Qed.

Lemma last_for_None k l : last_for k l = None <-> (forall p, In p l -> key p <> k).
Proof.
  induction l as [|x r IH]; simpl.
  - split; [intros _ p []|reflexivity].
  - destruct (last_for k r) eqn:E.
    + split; [discriminate|]. intro H; exfalso.
      apply (H i); [right|]. 2: apply (last_for_key k r i E).
      clear -E. induction r as [|y r' IHr]; simpl in *; [discriminate|].
      destruct (last_for k r'); [inversion E; subst; auto|].
      destruct (key_eqb (key y) k); inversion E; subst; auto.
    + destruct (key_eqb (key x) k) eqn:K.
      * split; [discriminate|]. intro H. apply key_eqb_true in K.
        exfalso; exact (H x (or_introl eq_refl) K).
      * apply key_eqb_false in K. split; [|reflexivity].
        intros _ p [<-|Hp]; [exact K|]. apply (proj1 IH eq_refl p Hp).
Qed.

Lemma overwrite_nil m : overwrite m [] = m.
Proof. unfold overwrite; simpl; apply map_id. Qed.

Lemma overwrite_keys m l : map key (overwrite m l) = map key m.
Proof.
  unfold overwrite; rewrite map_map; apply map_ext; intro q.
  destruct (last_for (key q) l) eqn:E; [apply (last_for_key _ _ _ E)|reflexivity].
Qed.

Lemma overwrite_app m l1 l2 :
  overwrite (overwrite m l1) l2 = overwrite m (l1 ++ l2).
Proof.
  unfold overwrite; rewrite map_map; apply map_ext; intro q.
  rewrite last_for_app.
  destruct (last_for (key q) l1) eqn:E1.
  - rewrite (last_for_key _ _ _ E1). destruct (last_for (key q) l2); reflexivity.
  - destruct (last_for (key q) l2); reflexivity.
Qed.

Lemma map_set_existing m p :
  In (key p) (map key m) -> map_set m p = overwrite m [p].
Proof.
  intro Hin. unfold map_set, overwrite.
  replace (existsb _ m) with true.
  - apply map_ext; intro q; simpl.
    unfold key; destruct (key_eqb (product_id p) (product_id q)); reflexivity.
  - symmetry; apply existsb_exists.
    apply in_map_iff in Hin as [q [Hq Hqm]].
    exists q; split; [exact Hqm|]. apply key_eqb_true; symmetry; exact Hq.
Qed.

Lemma key_dec (a b : option string) : {a = b} + {a <> b}.
Proof. decide equality; apply string_dec. Defined.

Lemma map_set_keys_mono m p k : In k (map key m) -> In k (map key (map_set m p)).
Proof.
  intro H. destruct (in_dec key_dec (key p) (map key m)) as [Hp|Hp].
  - rewrite map_set_existing by exact Hp. rewrite overwrite_keys; exact H.
  - unfold map_set. destruct existsb; [|rewrite map_app; apply in_or_app; left; exact H].
    rewrite map_map. apply in_map_iff in H as [q [<- Hq]].
    apply in_map_iff. exists q; split; [|exact Hq].
    destruct (key_eqb (product_id p) (product_id q)) eqn:K; [|reflexivity].
    apply key_eqb_true in K; exact K.
Qed.

Lemma map_set_key_in m p : In (key p) (map key (map_set m p)).
Proof.
  unfold map_set. destruct (existsb _ m) eqn:E.
  - apply existsb_exists in E as [q [Hq K]].
    apply in_map_iff. exists p. split; [reflexivity|].
    apply in_map_iff. exists q. rewrite K. split; [reflexivity|exact Hq].
  - rewrite map_app; apply in_or_app; right; left; reflexivity.
Qed.

Lemma ingest_keys_mono l m k : In k (map key m) -> In k (map key (ingest_store l m)).
Proof.
  revert m; induction l as [|p r IH]; intros m H; simpl; [exact H|].
  apply IH, map_set_keys_mono, H.
Qed.

Lemma ingest_keys_in l m p : In p l -> In (key p) (map key (ingest_store l m)).
Proof.
  revert m; induction l as [|x r IH]; intros m Hp; [destruct Hp|].
  destruct Hp as [<-|Hp]; simpl.
  - apply ingest_keys_mono, map_set_key_in.
  - apply IH, Hp.
Qed.

Lemma ingest_existing l m :
  (forall p, In p l -> In (key p) (map key m)) -> ingest_store l m = overwrite m l.
Proof.
  revert m; induction l as [|p r IH]; intros m H; simpl.
  - symmetry; apply overwrite_nil.
  - rewrite (map_set_existing m p) by (apply H; left; reflexivity).
    rewrite IH.
    + rewrite overwrite_app; reflexivity.
    + intros q Hq. rewrite overwrite_keys. apply H; right; exact Hq.
Qed.

Lemma map_set_frame_in m p q : In q m -> key q <> key p -> In q (map_set m p).
Proof.
  intros Hq K. unfold map_set. destruct existsb.
  - apply in_map_iff. exists q; split; [|exact Hq].
    replace (key_eqb (product_id p) (product_id q)) with false; [reflexivity|].
    symmetry; apply key_eqb_false; intro E; apply K; symmetry; exact E.
  - apply in_or_app; left; exact Hq.
Qed.

Lemma map_set_frame_out m p q : In q (map_set m p) -> key q <> key p -> In q m.
Proof.
  intros Hq K. unfold map_set in Hq. destruct existsb.
  - apply in_map_iff in Hq as [q0 [E Hq0]].
    destruct (key_eqb (product_id p) (product_id q0)); [subst; congruence|].
    subst; exact Hq0.
  - apply in_app_or in Hq as [Hq|[<-|[]]]; [exact Hq|congruence].
Qed.

Lemma map_set_hit m p q : In q (map_set m p) -> key q = key p -> q = p.
Proof.
  intros Hq K. unfold map_set in Hq. destruct (existsb _ m) eqn:E.
  - apply in_map_iff in Hq as [q0 [Eq Hq0]].
    destruct (key_eqb (product_id p) (product_id q0)) eqn:K0; [symmetry; exact Eq|].
    subst q0. apply key_eqb_false in K0. exfalso; apply K0; symmetry; exact K.
  - apply in_app_or in Hq as [Hq|[<-|[]]]; [|reflexivity].
    exfalso. assert (existsb (fun q => key_eqb (product_id p) (product_id q)) m = true)
      by (apply existsb_exists; exists q; split; [exact Hq|apply key_eqb_true; symmetry; exact K]).
    congruence.
Qed.

(** Entries whose key the batch does not carry are kept, and only they. *)
Lemma ingest_frame_in l m q :
  In q m -> (forall p, In p l -> key p <> key q) -> In q (ingest_store l m).
Proof.
  revert m; induction l as [|p r IH]; intros m Hq H; simpl; [exact Hq|].
  apply IH.
  - apply map_set_frame_in; [exact Hq|]. intro E; apply (H p (or_introl eq_refl)); congruence.
  - intros p' Hp'; apply H; right; exact Hp'.
Qed.

Lemma ingest_frame_out l m q :
  In q (ingest_store l m) -> last_for (key q) l = None -> In q m.
Proof.
  revert m; induction l as [|p r IH]; intros m Hq H; simpl in *; [exact Hq|].
  destruct (last_for (key q) r) eqn:E; [discriminate|].
  apply IH in Hq; [|reflexivity].
  apply map_set_frame_out with p; [exact Hq|].
  destruct (key_eqb (key p) (key q)) eqn:K; [discriminate|].
  apply key_eqb_false in K; congruence.
Qed.

Lemma ingest_last l m q p :
  In q (ingest_store l m) -> last_for (key q) l = Some p -> q = p.
Proof.
  revert m; induction l as [|x r IH]; intros m Hq H; simpl in *; [discriminate|].
  destruct (last_for (key q) r) eqn:E.
  - injection H as <-. exact (IH _ Hq eq_refl).
  - destruct (key_eqb (key x) (key q)) eqn:K; [|discriminate].
    inversion H; subst p. apply key_eqb_true in K.
    pose proof (ingest_frame_out r _ q Hq E) as Hm.
    apply (map_set_hit m x q Hm); symmetry; exact K.
Qed.

Lemma ingest_twice l m : ingest_store l (ingest_store l m) = ingest_store l m.
Proof.
  rewrite ingest_existing by (intros p Hp; apply ingest_keys_in, Hp).
  unfold overwrite. rewrite <- (map_id (ingest_store l m)) at 2.
  apply map_ext_in; intros q Hq.
  destruct (last_for (key q) l) eqn:E; [|reflexivity].
  symmetry; apply (ingest_last l m q i Hq E).
Qed.

End CsvFacts.

(** ** Facts about validation and the batch *)

Module BatchFacts.
Import JS Csv CsvFacts.
Local Open Scope list_scope.

Lemma collect_app ok l1 l2 : collect ok (l1 ++ l2) = collect ok l1 ++ collect ok l2.
Proof.
  induction l1 as [|r rs IH]; simpl; [reflexivity|].
  destruct (validate ok r); rewrite IH; reflexivity.
Qed.

Lemma collect_length ok rows :
  length (collect ok rows) = length (filter (passes ok) rows).
Proof.
  induction rows as [|r rs IH]; simpl; [reflexivity|].
  unfold passes at 1. destruct (validate ok r); simpl; rewrite IH; reflexivity.
Qed.

(** A validated product carries its row's [product_id] cell. *)
Lemma collect_ids ok rows p :
  In p (collect ok rows) -> exists r, In r rows /\ product_id p = field r "product_id".
Proof.
  induction rows as [|r rs IH]; simpl; [intros []|].
  destruct (validate ok r) eqn:V.
  - intros [<-|Hp].
    + exists r; split; [left; reflexivity|].
      unfold validate, parse in V. destruct (ok (coerce_row r)); [|discriminate].
      injection V as <-. reflexivity.
    + destruct (IH Hp) as [r' [Hr' E]]. exists r'; split; [right|]; assumption.
  - intro Hp. destruct (IH Hp) as [r' [Hr' E]]. exists r'; split; [right|]; assumption.
Qed.

Lemma map_set_in m p : In p (map_set m p).
Proof.
  unfold map_set. destruct existsb eqn:E.
  - apply existsb_exists in E as [q [Hq K]].
    apply in_map_iff. exists q. rewrite K. split; [reflexivity|exact Hq].
  - apply in_or_app; right; left; reflexivity.
Qed.

(** A batch product that no later batch product shares a key with ends up
    in the store verbatim. *)
Lemma ingest_last_in pre p post m :
  (forall p', In p' post -> key p' <> key p) ->
  In p (ingest_store (pre ++ p :: post) m).
Proof.
  intro H. unfold ingest_store. rewrite fold_left_app. simpl.
  apply ingest_frame_in; [apply map_set_in|exact H].
Qed.

End BatchFacts.

(** ** The claims about ingestion and search *)

Module IngestClaims.
Import JS Csv CsvFacts BatchFacts Samples.
Local Open Scope list_scope.

(** C1: running [importProductsFromCsv] twice on the same stream leaves the
    store, and so [getProductCount], exactly as one run leaves it: a row
    whose [product_id] is already stored overwrites that product in place. *)
Theorem ingest_twice_same_store (ok : InsertProduct -> bool) (rows : list Row) (m : Store) :
  let m1 := snd (importProductsFromCsv ok rows Ended m) in
  let m2 := snd (importProductsFromCsv ok rows Ended m1) in
  m2 = m1 /\ getProductCount m2 = getProductCount m1.
Proof.
  simpl. fold (ingest_store (collect ok rows) m).
  fold (ingest_store (collect ok rows) (ingest_store (collect ok rows) m)).
  rewrite ingest_twice. split; reflexivity.
Qed.

(** C5: when the stream ends, the promise resolves with the number of rows
    that passed validation, whatever the store held before (so however many
    of them were inserted and however many updated). *)
Theorem ingest_resolves_valid_count (ok : InsertProduct -> bool) (rows : list Row) (m : Store) :
  fst (importProductsFromCsv ok rows Ended m)
  = Resolved (length (filter (passes ok) rows)).
Proof.
  simpl. rewrite collect_length. reflexivity.
Qed.

(** C6 (as stated, refuted): with two valid rows for identifier [A1] and one
    row without a price, ingestion resolves with 2, yet the product of the
    first [A1] row is not in the store: the later row replaced it. *)
Lemma ingest_duplicate_id_replaces_earlier :
  let rows := [rowA1; rowA1b; row_bad] in
  fst (importProductsFromCsv insertProductSchema_ok rows Ended []) = Resolved 2 /\
  exists p, validate insertProductSchema_ok rowA1 = Some p /\
    ~ In p (snd (importProductsFromCsv insertProductSchema_ok rows Ended [])).
Proof.
  split; [reflexivity|].
  eexists; split; [reflexivity|].
  vm_compute. intros [H|[]]. discriminate H.
Qed.

(** C6 (amended): a row that fails validation neither aborts nor changes
    the batch.  Ingestion resolves with the number N of valid rows, leaves
    the store exactly as ingesting the stream without the bad row would,
    stores a product under the identifier of every valid row, and keeps
    verbatim every valid row's product that no later valid row of the
    stream replaces (so all N when their identifiers are distinct). *)
Theorem ingest_skips_invalid_row (ok : InsertProduct -> bool)
  (pre post : list Row) (bad : Row) (m : Store)
  (Hbad : validate ok bad = None) :
  let res := importProductsFromCsv ok (pre ++ bad :: post) Ended m in
  fst res = Resolved (length (collect ok (pre ++ post))) /\
  snd res = snd (importProductsFromCsv ok (pre ++ post) Ended m) /\
  (forall p, In p (collect ok (pre ++ post)) ->
     In (product_id p) (map product_id (snd res))) /\
  (forall vpre p vpost, collect ok (pre ++ post) = vpre ++ p :: vpost ->
     (forall p', In p' vpost -> product_id p' <> product_id p) ->
     In p (snd res)).
Proof.
  assert (Hc : collect ok (pre ++ bad :: post) = collect ok (pre ++ post)).
  { rewrite !collect_app. simpl. rewrite Hbad. reflexivity. }
  simpl. rewrite Hc.
  fold (ingest_store (collect ok (pre ++ post)) m).
  split; [reflexivity|]. split; [reflexivity|]. split.
  - intros p Hp. apply ingest_keys_in, Hp.
  - intros vpre p vpost E H. rewrite E. apply ingest_last_in, H.
Qed.

(** C6 witness: one valid row before and one after a row without a price. *)
Lemma ingest_skips_invalid_row_witness :
  validate insertProductSchema_ok row_bad = None /\
  (let res := importProductsFromCsv insertProductSchema_ok ([rowA1] ++ row_bad :: [rowA2]) Ended [] in
   fst res = Resolved (length (collect insertProductSchema_ok ([rowA1] ++ [rowA2]))) /\
   snd res = snd (importProductsFromCsv insertProductSchema_ok ([rowA1] ++ [rowA2]) Ended []) /\
   (forall p, In p (collect insertProductSchema_ok ([rowA1] ++ [rowA2])) ->
      In (product_id p) (map product_id (snd res))) /\
   (forall vpre p vpost, collect insertProductSchema_ok ([rowA1] ++ [rowA2]) = vpre ++ p :: vpost ->
      (forall p', In p' vpost -> product_id p' <> product_id p) ->
      In p (snd res))).
Proof.
  split; [reflexivity|].
  apply (ingest_skips_invalid_row insertProductSchema_ok [rowA1] [rowA2] row_bad []).
  reflexivity.
Defined.

(** C9: ingestion is upsert, never delete: a stored product whose
    identifier is the [product_id] cell of no row of the stream is still in
    the store, unchanged, once the stream has ended (or failed). *)
Theorem ingest_keeps_untouched (ok : InsertProduct -> bool) (rows : list Row)
  (e : stream_end) (m : Store) (q : InsertProduct)
  (Hq : In q m)
  (Hfresh : forall r, In r rows -> field r "product_id" <> product_id q) :
  In q (snd (importProductsFromCsv ok rows e m)).
Proof.
  destruct e; simpl; [|exact Hq].
  fold (ingest_store (collect ok rows) m).
  apply ingest_frame_in; [exact Hq|].
  intros p Hp. destruct (collect_ids ok rows p Hp) as [r [Hr E]].
  unfold key. rewrite E. apply Hfresh, Hr.
Qed.

(** C9 witness: a stored [B7] product survives ingesting the [A1] row. *)
Lemma ingest_keeps_untouched_witness :
  exists q, validate insertProductSchema_ok row_null = Some q /\
  In q [q] /\
  (forall r, In r [rowA1] -> field r "product_id" <> product_id q) /\
  In q (snd (importProductsFromCsv insertProductSchema_ok [rowA1] Ended [q])).
Proof.
  eexists. split; [reflexivity|].
  assert (Hq : In (coerce_row row_null) [coerce_row row_null]) by (simpl; left; reflexivity).
  assert (Hf : forall r, In r [rowA1] -> field r "product_id" <> product_id (coerce_row row_null)).
  { intros r Hr. destruct Hr as [<-|[]]. vm_compute. discriminate. }
  split; [exact Hq|]. split; [exact Hf|].
  exact (ingest_keeps_untouched insertProductSchema_ok [rowA1] Ended
           [coerce_row row_null] (coerce_row row_null) Hq Hf).
Defined.

(** C8 (code bug): the coercion maps a literal [NULL] to null only for the
    [event] cell; a [NULL] in [competitor_price] (likewise [cost_price],
    [event_impact], [ad_spend], [market_share]) is kept as the string
    ["NULL"], and the validated product carries it. *)
Theorem NULL_cell_kept_as_string :
  event (coerce_row row_null) = None /\
  competitor_price (coerce_row row_null) = Some "NULL" /\
  exists p, validate insertProductSchema_ok row_null = Some p /\
    competitor_price p = Some "NULL".
Proof.
  split; [reflexivity|]. split; [reflexivity|].
  eexists; split; reflexivity.
Qed.

(** C4 (code bug): [MemStorage.searchProducts] lower-cases the title but not
    the query, so the query [Widget] finds nothing in a store holding the
    product titled [Widget], while [widget] finds it. *)
Theorem search_query_case_sensitive :
  let m := snd (importProductsFromCsv insertProductSchema_ok [rowA1] Ended []) in
  searchProducts m "Widget" = Some [] /\
  exists p, searchProducts m "widget" = Some [p] /\ title p = Some "Widget".
Proof.
  split; [reflexivity|]. eexists; split; reflexivity.
Qed.

End IngestClaims.

(** ** Facts about the in-memory views *)

Module ViewFacts.
Import JS Mem.

Lemma map_rng_proj {A B C} (f : A -> Rng -> B * Rng) (h : B -> C) (k : A -> C) l g :
  (forall x g0, h (fst (f x g0)) = k x) ->
  map h (fst (map_rng f l g)) = map k l.
Proof.
  intro H. revert g; induction l as [|x r IH]; intro g; simpl; [reflexivity|].
  specialize (H x g). destruct (f x g) as [y g1]. simpl in H.
  specialize (IH g1). destruct (map_rng f r g1) as [ys g2]. simpl in *.
  rewrite H, IH; reflexivity.
Qed.

Lemma map_rng_indep {A B C} (f : A -> Rng -> B * Rng) (h : B -> C) l g1 g2 :
  (forall x g g', h (fst (f x g)) = h (fst (f x g'))) ->
  map h (fst (map_rng f l g1)) = map h (fst (map_rng f l g2)).
Proof.
  intro H.
  rewrite (map_rng_proj f h (fun x => h (fst (f x g1))) l g1) by (intros; apply H).
  rewrite (map_rng_proj f h (fun x => h (fst (f x g1))) l g2) by (intros; apply H).
  reflexivity.
Qed.

Lemma map_rng_in {A B} (f : A -> Rng -> B * Rng) l g x :
  In x l -> exists g0, In (fst (f x g0)) (fst (map_rng f l g)).
Proof.
  revert g; induction l as [|y r IH]; intros g Hx; simpl in Hx; [destruct Hx|].
  simpl. destruct (f y g) as [b g1] eqn:F.
  destruct (map_rng f r g1) as [bs g2] eqn:M. simpl.
  destruct Hx as [<-|Hx].
  - exists g. rewrite F. left; reflexivity.
  - destruct (IH g1 Hx) as [g0 H0]. rewrite M in H0. exists g0. right; exact H0.
Qed.

Lemma dedup_in seen xs x : In x xs -> In x seen \/ In x (dedup seen xs).
Proof.
  revert seen; induction xs as [|y r IH]; intros seen Hx; [destruct Hx|].
  simpl. destruct (existsb (String.eqb y) seen) eqn:E.
  - destruct Hx as [<-|Hx]; [|apply IH, Hx].
    left. apply existsb_exists in E as [z [Hz Ez]].
    apply String.eqb_eq in Ez; subst; exact Hz.
  - destruct Hx as [<-|Hx]; [right; left; reflexivity|].
    destruct (IH (y :: seen) Hx) as [[<-|H]|H].
    + right; left; reflexivity.
    + left; exact H.
    + right; right; exact H.
Qed.

(** A [reduce] over numbers is a rational sum. *)
Lemma sum_num {A} (f : A -> jsnum) l xs a :
  map f l = map JNum xs ->
  fold_left (fun s x => add s (f x)) l (JNum a) = JNum (fold_left Qplus xs a).
Proof.
  revert xs a; induction l as [|y r IH]; intros xs a H; destruct xs as [|x xs];
    simpl in H; try discriminate; simpl; [reflexivity|].
  injection H as H1 H2. rewrite H1. apply IH, H2.
Qed.

Lemma fold_Qplus xs a : fold_left Qplus xs a == a + fold_right Qplus 0 xs.
Proof.
  revert a; induction xs as [|x r IH]; intro a; simpl; [ring|].
  rewrite IH. ring.
Qed.

Lemma fold_Qplus_Z (zs : list Z) :
  fold_right Qplus 0 (map inject_Z zs) == inject_Z (fold_right Z.add 0%Z zs).
Proof.
  induction zs as [|z r IH]; simpl; [reflexivity|].
  rewrite IH, inject_Z_plus. reflexivity.
Qed.

End ViewFacts.

(** ** The claims about queries and aggregation views *)

Module ViewClaims.
Import JS Mem ViewFacts Samples.

(** C2 (code bug): [getProducts] tests each filter for truthiness, so a
    [maxPrice] of 0 (what the route parses from [?maxPrice=0]) is skipped and
    a product priced 5 is returned although 5 <= 0 fails. *)
Theorem getProducts_maxPrice_zero_ignored :
  let st := mkState [lamp] [] in
  let filters := mkFilters None None (Some (of_Z 0)) None None in
  getProducts st 50 0 (Some filters) = [lamp] /\
  le (parseFloat (price lamp)) (of_Z 0) = false.
Proof. split; reflexivity. Qed.

(** C3 (as stated, refuted): two consecutive [getTrendingProducts] calls on
    the same store return different rows, since [salesGrowth] and
    [revenueGrowth] are fresh [Math.random] draws. *)
Lemma trending_calls_differ :
  let st := mkState [lamp] [] in
  let '(first, g1) := getTrendingProducts st 10 rng0 in
  let '(second, _) := getTrendingProducts st 10 g1 in
  first <> second.
Proof.
  vm_compute. intro H. discriminate H.
Qed.

(** C3 (amended): whatever [Math.random] yields, the ranking views return
    the same products in the same order with the same [competitivePosition],
    and [getCategoryPerformance] the same categories with the same
    [sales], [revenue] and [profitMargin]; only the growth fields vary.  The
    views read the store and write nothing to it. *)
Theorem views_ignore_random (st : MemState) (limit : nat) (g1 g2 : Rng) :
  let rows v := map (fun r => (product r, competitivePosition r)) (fst v) in
  rows (getTrendingProducts st limit g1) = rows (getTrendingProducts st limit g2) /\
  rows (getTopProfitProducts st limit g1) = rows (getTopProfitProducts st limit g2) /\
  rows (getUnderperformingProducts st limit g1)
    = rows (getUnderperformingProducts st limit g2) /\
  map cp_key (fst (getCategoryPerformance st g1))
    = map cp_key (fst (getCategoryPerformance st g2)).
Proof.
  simpl. unfold getTrendingProducts, getTopProfitProducts,
    getUnderperformingProducts, getCategoryPerformance.
  repeat split; apply map_rng_indep; intros; reflexivity.
Qed.

(** C7: for every category present in the store, the [sales] of its
    [getCategoryPerformance] row is the sum of [salesVolume] over the
    products of that category. *)
Theorem category_sales_is_volume_sum (st : MemState) (g : Rng) (c : string)
  (Hc : In c (map category (products st))) :
  exists e, In e (fst (getCategoryPerformance st g)) /\ cp_category e = c /\
    js_eq (cp_sales e)
      (of_Z (fold_right Z.add 0%Z
               (map salesVolume (filter (fun p => String.eqb (category p) c) (products st))))).
Proof.
  unfold getCategoryPerformance.
  destruct (dedup_in [] _ c Hc) as [[]|Hd].
  match goal with
  | |- context [map_rng ?f ?l g] => destruct (map_rng_in f l g c Hd) as [g0 H0]
  end.
  eexists; split; [exact H0|].
  destruct (random g0) as [r g1] eqn:R. simpl. split; [reflexivity|].
  set (l := filter _ _).
  unfold sum. rewrite (sum_num _ l (map (fun p => inject_Z (salesVolume p)) l) 0)
    by (rewrite !map_map; reflexivity).
  simpl. rewrite fold_Qplus, <- map_map, fold_Qplus_Z. ring.
Qed.

(** C7 witness: the two [Home] products sell 120 + 30. *)
Lemma category_sales_is_volume_sum_witness :
  In "Home" (map category (products (mkState [lamp; kettle] []))) /\
  exists e, In e (fst (getCategoryPerformance (mkState [lamp; kettle] []) rng0)) /\
    cp_category e = "Home" /\
    js_eq (cp_sales e)
      (of_Z (fold_right Z.add 0%Z
               (map salesVolume (filter (fun p => String.eqb (category p) "Home")
                                        (products (mkState [lamp; kettle] [])))))).
Proof.
  assert (H : In "Home" (map category (products (mkState [lamp; kettle] []))))
    by (simpl; left; reflexivity).
  split; [exact H|].
  exact (category_sales_is_volume_sum (mkState [lamp; kettle] []) rng0 "Home" H).
Defined.

(** C10: [getDashboardMetrics] divides by the product count with no zero
    guard: on an empty store [avgProfitMargin] and [avgRating] are [NaN]
    (0/0); on a non-empty store whose margins and ratings parse as numbers
    they are the arithmetic means of those numbers; [totalProducts] is the
    number of products. *)
Theorem dashboard_averages (st : MemState) (pms rts : list Q)
  (Hpm : map (fun p => parseFloat (profitMargin p)) (products st) = map JNum pms)
  (Hrt : map (fun p => parseFloat (rating p)) (products st) = map JNum rts) :
  totalProducts (getDashboardMetrics st) = length (products st) /\
  match products st with
  | [] => avgProfitMargin (getDashboardMetrics st) = JNaN /\
          avgRating (getDashboardMetrics st) = JNaN
  | _ :: _ =>
      js_eq (avgProfitMargin (getDashboardMetrics st))
            (JNum (fold_right Qplus 0 pms / inject_Z (Z.of_nat (length pms)))) /\
      js_eq (avgRating (getDashboardMetrics st))
            (JNum (fold_right Qplus 0 rts / inject_Z (Z.of_nat (length rts))))
  end.
Proof.
  split; [reflexivity|].
  unfold getDashboardMetrics; simpl.
  destruct (products st) as [|p ps] eqn:E; [split; reflexivity|].
  assert (Lpm : length pms = length (p :: ps))
    by (rewrite <- (length_map JNum pms), <- Hpm, length_map; reflexivity).
  assert (Lrt : length rts = length (p :: ps))
    by (rewrite <- (length_map JNum rts), <- Hrt, length_map; reflexivity).
  unfold sum. rewrite (sum_num _ _ pms 0 Hpm), (sum_num _ _ rts 0 Hrt).
  rewrite Lpm, Lrt.
  assert (Hn : Qeq_bool (inject_Z (Z.of_nat (length (p :: ps)))) 0 = false).
  { apply not_true_iff_false. intro H. apply Qeq_bool_eq in H.
    unfold Qeq in H. simpl in H. lia. }
  simpl length in Hn |- *. unfold div, of_Z. rewrite Hn.
  split; apply Qmult_comp; try reflexivity; rewrite fold_Qplus; ring.
Qed.

(** C10 witness: margins 25 and 10, ratings 4.5 and 3.5. *)
Lemma dashboard_averages_witness :
  let st := mkState [lamp; kettle] [] in
  map (fun p => parseFloat (profitMargin p)) (products st) = map JNum [25; 10]%Q /\
  map (fun p => parseFloat (rating p)) (products st) = map JNum [Qmake 45 10; Qmake 35 10] /\
  totalProducts (getDashboardMetrics st) = length (products st) /\
  js_eq (avgProfitMargin (getDashboardMetrics st))
        (JNum (fold_right Qplus 0 [25; 10]%Q / inject_Z (Z.of_nat 2))) /\
  js_eq (avgRating (getDashboardMetrics st))
        (JNum (fold_right Qplus 0 [Qmake 45 10; Qmake 35 10] / inject_Z (Z.of_nat 2))).
Proof.
  assert (H1 : map (fun p => parseFloat (profitMargin p)) (products (mkState [lamp; kettle] []))
               = map JNum [25; 10]%Q) by (vm_compute; reflexivity).
  assert (H2 : map (fun p => parseFloat (rating p)) (products (mkState [lamp; kettle] []))
               = map JNum [Qmake 45 10; Qmake 35 10]) by (vm_compute; reflexivity).
  destruct (dashboard_averages (mkState [lamp; kettle] []) _ _ H1 H2) as [T [A R]].
  split; [exact H1|]. split; [exact H2|]. split; [exact T|]. split; [exact A|exact R].
Defined.

End ViewClaims.

(** ** Facts about [Array.prototype.sort] and [slice] *)

Module SortFacts.
Import JS.

Lemma insert_sorted_perm {A} (cmp : A -> A -> jsnum) x l :
  Permutation (insert_sorted cmp x l) (x :: l).
Proof.
  induction l as [|y r IH]; simpl; [reflexivity|].
  destruct (gt (cmp x y) (JNum 0)); [|reflexivity].
  rewrite IH. apply perm_swap.
Qed.

Lemma sort_perm {A} (cmp : A -> A -> jsnum) l : Permutation (sort cmp l) l.
Proof.
  induction l as [|x r IH]; simpl; [reflexivity|].
  rewrite insert_sorted_perm, IH; reflexivity.
Qed.

Section Ranked.
Context {A : Type} (cmp : A -> A -> jsnum) (P : A -> Prop) (R : A -> A -> Prop).

(** The comparator orders the elements satisfying [P] along [R]: an element
    that stays after another is [R]-after it, one that jumps ahead is
    [R]-before it. *)
Hypothesis R_stay : forall x y, P x -> P y -> gt (cmp x y) (JNum 0) = false -> R x y.
Hypothesis R_jump : forall x y, P x -> P y -> gt (cmp x y) (JNum 0) = true -> R y x.

Lemma insert_sorted_Sorted x l :
  P x -> Forall P l -> Sorted R l -> Sorted R (insert_sorted cmp x l).
Proof.
  intros Px; induction l as [|y r IH]; intros Pl Sl; simpl; [repeat constructor|].
  inversion Pl as [|? ? Py Pr]; subst. inversion Sl as [|? ? Sr Hd]; subst.
  destruct (gt (cmp x y) (JNum 0)) eqn:G.
  - constructor; [apply IH; assumption|].
    destruct r as [|z r']; simpl; [constructor; apply R_jump; assumption|].
    destruct (gt (cmp x z) (JNum 0)).
    + inversion Hd; subst; constructor; assumption.
    + constructor; apply R_jump; assumption.
  - constructor; [exact Sl|]. constructor; apply R_stay; assumption.
Qed.

Lemma sort_Sorted l : Forall P l -> Sorted R (sort cmp l).
Proof.
  induction l as [|x r IH]; intro Pl; simpl; [constructor|].
  inversion Pl; subst. apply insert_sorted_Sorted; auto.
  apply Forall_forall; intros y Hy.
  apply (Permutation_in _ (sort_perm cmp r)) in Hy.
  eapply Forall_forall; eauto.
Qed.

End Ranked.

Lemma Sorted_firstn {A} (R : A -> A -> Prop) n l : Sorted R l -> Sorted R (firstn n l).
Proof.
  revert l; induction n as [|n IH]; intros l S; [constructor|].
  destruct l as [|x r]; [constructor|]. simpl.
  inversion S as [|? ? Sr Hd]; subst. constructor; [apply IH, Sr|].
  destruct r as [|y r'], n; simpl; constructor. inversion Hd; assumption.
Qed.

Lemma slice_0 {A} (l : list A) n : slice l 0 n = firstn n l.
Proof. unfold slice; rewrite Nat.sub_0_r; reflexivity. Qed.

Lemma in_slice {A} (l : list A) a b x : In x (slice l a b) -> In x l.
Proof.
  unfold slice; intro H.
  rewrite <- (firstn_skipn a l); apply in_or_app; right.
  rewrite <- (firstn_skipn (b - a) (skipn a l)); apply in_or_app; left; exact H.
Qed.

Lemma in_firstn {A} (l : list A) n x : In x (firstn n l) -> In x l.
Proof. intro H; rewrite <- (firstn_skipn n l); apply in_or_app; left; exact H. Qed.

(** [gt(a - b, 0)] on numbers is [b < a]. *)
Lemma gt_sub_num x y : gt (sub (JNum x) (JNum y)) (JNum 0) = negb (Qle_bool x y).
Proof.
  simpl. f_equal. apply eq_true_iff_eq. rewrite !Qle_bool_iff. split; intro H; lra.
Qed.

Lemma gt_sub_Z a b : gt (sub (of_Z a) (of_Z b)) (JNum 0) = negb (a <=? b)%Z.
Proof.
  unfold of_Z; rewrite gt_sub_num. f_equal.
  apply eq_true_iff_eq. rewrite Qle_bool_iff, <- Zle_Qle, Z.leb_le; reflexivity.
Qed.

Lemma Qle_bool_false x y : Qle_bool x y = false -> y <= x.
Proof.
  intro H. apply Qlt_le_weak, Qnot_le_lt. intro C. apply Qle_bool_iff in C. congruence.
Qed.

End SortFacts.

(** ** Facts about lookups, counts and search in the product_id storage *)

Module StoreFacts.
Import JS Csv CsvFacts CsvStore.
Local Open Scope list_scope.
Local Open Scope nat_scope.

Lemma find_app {A} (f : A -> bool) l1 l2 :
  find f (l1 ++ l2) = match find f l1 with Some x => Some x | None => find f l2 end.
Proof.
  induction l1 as [|x r IH]; simpl; [reflexivity|].
  destruct (f x); [reflexivity|exact IH].
Qed.

Lemma key_eqb_refl k : key_eqb k k = true.
Proof. apply key_eqb_true; reflexivity. Qed.

(** [get] after [set]. *)
Lemma getProduct_map_set m p id :
  getProduct (map_set m p) id =
  if key_eqb (product_id p) (Some id) then Some p else getProduct m id.
Proof.
  unfold getProduct, map_set.
  destruct (key_eqb (product_id p) (Some id)) eqn:K.
  - apply key_eqb_true in K. destruct existsb eqn:E.
    + apply existsb_exists in E as [q0 [Hq0 Kq0]].
      induction m as [|q r IH]; [destruct Hq0|]. simpl.
      destruct (key_eqb (product_id p) (product_id q)) eqn:Kq.
      * simpl. rewrite K. simpl. rewrite String.eqb_refl. reflexivity.
      * simpl. replace (key_eqb (product_id q) (Some id)) with false.
        -- apply IH. destruct Hq0 as [<-|H]; [congruence|exact H].
        -- symmetry; apply key_eqb_false. intro C. apply key_eqb_false in Kq. congruence.
    + rewrite find_app. destruct (find _ m) eqn:F.
      * exfalso. apply find_some in F as [Hi Fi].
        assert (existsb (fun q => key_eqb (product_id p) (product_id q)) m = true)
          as T; [|congruence].
        apply existsb_exists. exists i; split; [exact Hi|].
        apply key_eqb_true. apply key_eqb_true in Fi. congruence.
      * simpl. rewrite K. simpl. rewrite String.eqb_refl. reflexivity.
  - destruct existsb.
    + induction m as [|q r IH]; simpl; [reflexivity|].
      destruct (key_eqb (product_id p) (product_id q)) eqn:Kq.
      * apply key_eqb_true in Kq. rewrite K, <- Kq, K. exact IH.
      * destruct (key_eqb (product_id q) (Some id)); [reflexivity|exact IH].
    + rewrite find_app. destruct (find _ m); [reflexivity|]. simpl. rewrite K. reflexivity.
Qed.

Lemma getProduct_ingest l m id :
  getProduct (ingest_store l m) id =
  match last_for (Some id) l with Some p => Some p | None => getProduct m id end.
Proof.
  revert m; induction l as [|p r IH]; intro m; [reflexivity|].
  unfold ingest_store in *; simpl. rewrite IH, getProduct_map_set.
  destruct (last_for (Some id) r); [reflexivity|]. unfold key.
  destruct (key_eqb (product_id p) (Some id)); reflexivity.
Qed.

Lemma map_set_length m p :
  length m <= length (map_set m p) <= S (length m).
Proof.
  unfold map_set. destruct existsb.
  - rewrite length_map; lia.
  - rewrite length_app; simpl; lia.
Qed.

Lemma ingest_length l m :
  length m <= length (ingest_store l m) <= length m + length l.
Proof.
  revert m; induction l as [|p r IH]; intro m; unfold ingest_store in *; simpl; [lia|].
  simpl in IH.
  pose proof (map_set_length m p). specialize (IH (map_set m p)). lia.
Qed.

(** *** [toLowerCase] leaves no capital letter *)

Definition upper (c : ascii) : bool :=
  let n := nat_of_ascii c in (65 <=? n)%nat && (n <=? 90)%nat.

Lemma lower_ascii_not_upper c : upper (lower_ascii c) = false.
Proof.
  unfold upper, lower_ascii.
  destruct ((65 <=? nat_of_ascii c)%nat && (nat_of_ascii c <=? 90)%nat) eqn:U.
  - apply andb_true_iff in U as [U1 U2]. apply Nat.leb_le in U1, U2.
    rewrite nat_ascii_embedding by lia.
    apply andb_false_iff; right; apply Nat.leb_gt; lia.
  - exact U.
Qed.

Lemma has_upper_cons c r : has_upper (String c r) = upper c || has_upper r.
Proof. reflexivity. Qed.

Lemma toLowerCase_no_upper s : has_upper (toLowerCase s) = false.
Proof.
  induction s as [|c r IH]; [reflexivity|].
  simpl toLowerCase. rewrite has_upper_cons, lower_ascii_not_upper, IH. reflexivity.
Qed.

Lemma startsWith_upper s q :
  startsWith s q = true -> has_upper q = true -> has_upper s = true.
Proof.
  revert s; induction q as [|c q' IH]; intros s H U; [discriminate|].
  destruct s as [|d s']; [discriminate|]. simpl in H.
  apply andb_true_iff in H as [E H]. apply Ascii.eqb_eq in E; subst d.
  rewrite has_upper_cons in *. apply orb_true_iff in U as [U|U].
  - rewrite U; reflexivity.
  - rewrite (IH s' H U), orb_true_r; reflexivity.
Qed.

Lemma includes_upper s q :
  includes s q = true -> has_upper q = true -> has_upper s = true.
Proof.
  induction s as [|c r IH]; intros H U.
  - destruct q; simpl in H, U; discriminate.
  - change (startsWith (String c r) q || includes r q = true) in H.
    apply orb_true_iff in H as [H|H].
    + exact (startsWith_upper _ _ H U).
    + rewrite has_upper_cons, (IH H U), orb_true_r; reflexivity.
Qed.

End StoreFacts.

(** ** Properties of the product_id storage *)

Module StoreProps.
Import JS Csv CsvFacts CsvStore StoreFacts SortFacts.
Local Open Scope list_scope.

(** X1: [createProduct] then [getProduct]: the identifier of the new product
    reads it back, every other identifier reads what it read before. *)
Theorem getProduct_after_createProduct (m : Store) (p : InsertProduct) (id : string) :
  getProduct (snd (createProduct m p)) id =
  if key_eqb (product_id p) (Some id) then Some p else getProduct m id.
Proof. apply getProduct_map_set. Qed.

(** X2: After an import that ends, an identifier reads the last valid row
    carrying it, or what it read before when no valid row carries it; after
    a stream error every lookup is unchanged. *)
Theorem getProduct_after_import (ok : InsertProduct -> bool) (rows : list Row)
  (e : stream_end) (m : Store) (id : string) :
  getProduct (snd (importProductsFromCsv ok rows e m)) id =
  match e with
  | Ended =>
      match last_for (Some id) (collect ok rows) with
      | Some p => Some p
      | None => getProduct m id
      end
  | Errored => getProduct m id
  end.
Proof.
  destruct e; simpl; [|reflexivity].
  apply (getProduct_ingest (collect ok rows) m id).
Qed.

(** X3: An import never shrinks the store, and grows it by at most the number
    of valid rows (the count its promise resolves with). *)
Theorem import_count_bounds (ok : InsertProduct -> bool) (rows : list Row)
  (e : stream_end) (m : Store) :
  (getProductCount m <= getProductCount (snd (importProductsFromCsv ok rows e m))
   <= getProductCount m + length (collect ok rows))%nat.
Proof.
  unfold getProductCount. destruct e; simpl; [|lia].
  apply (ingest_length (collect ok rows) m).
Qed.

(** X4: [seed] leaves a non-empty store alone, and seeding twice from the same
    file is seeding once. *)
Theorem seed_idempotent (ok : InsertProduct -> bool) (m : Store)
  (file : option (list Row * stream_end)) :
  seed ok (seed ok m file) file = seed ok m file /\
  (m <> [] -> seed ok m file = m).
Proof.
  split.
  - unfold seed, getProductCount. destruct m as [|x r]; simpl; [|reflexivity].
    destruct file as [[rows e]|]; simpl; [|reflexivity].
    remember (snd (importProductsFromCsv ok rows e [])) as s1 eqn:Hs.
    destruct s1 as [|y t]; simpl; [symmetry; exact Hs|reflexivity].
  - intro H. unfold seed, getProductCount. destruct m; [congruence|reflexivity].
Qed.

(** X5: The product_id [searchProducts] compares the query as given with
    lower-cased titles: a query with a capital letter finds nothing. *)
Theorem search_upper_query_finds_nothing (m : Store) (query : string)
  (found : list InsertProduct) :
  has_upper query = true -> searchProducts m query = Some found -> found = [].
Proof.
  intro U. revert found; induction m as [|p r IH]; intros found H; simpl in H.
  - injection H as <-; reflexivity.
  - destruct (title p) as [t|]; [|discriminate].
    destruct (searchProducts r query) as [f|]; [|discriminate].
    injection H as <-.
    destruct (includes (toLowerCase t) query) eqn:I.
    + exfalso. pose proof (includes_upper _ _ I U) as C.
      rewrite toLowerCase_no_upper in C. discriminate.
    + apply IH; reflexivity.
Qed.

(** A witness: the title "Widget" is not found by the query "Widget". *)
Lemma search_upper_query_finds_nothing_witness :
  has_upper "Widget" = true /\
  searchProducts [coerce_row Samples.rowA1] "Widget" = Some [] /\
  @nil InsertProduct = [].
Proof.
  assert (U : has_upper "Widget" = true) by reflexivity.
  assert (S : searchProducts [coerce_row Samples.rowA1] "Widget" = Some [])
    by (vm_compute; reflexivity).
  split; [exact U|split; [exact S|]].
  exact (search_upper_query_finds_nothing _ _ _ U S).
Defined.

(** X6: The product_id [getTrendingProducts]: when every event impact is empty,
    missing or numeric, the result is the [limit] products of highest
    impact (a missing impact counting as 0), highest first, each with zero
    growth and position "leading". *)
Theorem trending_by_impact (m : Store) (limit : nat) (f : InsertProduct -> Q) :
  (forall p, In p m -> impact p = JNum (f p)) ->
  let r := getTrendingProducts m limit in
  length r = Nat.min limit (length m) /\
  (forall w, In w r -> In (product w) m /\ salesGrowth w = JNum 0 /\
                       revenueGrowth w = JNum 0 /\ competitivePosition w = "leading") /\
  Sorted (fun a b => (f b <= f a)%Q) (map product r).
Proof.
  intros Hf r. unfold r, getTrendingProducts. rewrite slice_0.
  split; [|split].
  - rewrite length_map, length_firstn, (Permutation_length (sort_perm _ m)). reflexivity.
  - intros w Hw. apply in_map_iff in Hw as [p [<- Hp]]. simpl.
    repeat split; [|reflexivity..].
    apply in_firstn in Hp. exact (Permutation_in _ (sort_perm _ m) Hp).
  - rewrite map_map. simpl. rewrite map_id. apply Sorted_firstn.
    apply (sort_Sorted _ (fun p => In p m)).
    + intros x y Hx Hy G. rewrite (Hf x Hx), (Hf y Hy), gt_sub_num in G.
      apply negb_false_iff, Qle_bool_iff in G. exact G.
    + intros x y Hx Hy G. rewrite (Hf x Hx), (Hf y Hy), gt_sub_num in G.
      apply negb_true_iff, Qle_bool_false in G. exact G.
    + apply Forall_forall; auto.
Qed.

(** A witness: [A1] has no event, [A4] an impact of 1.5. *)
Lemma trending_by_impact_witness :
  let m := [coerce_row Samples.rowA1; coerce_row MoreSamples.rowA4] in
  let f := fun p => match impact p with JNum x => x | _ => 0%Q end in
  (forall p, In p m -> impact p = JNum (f p)) /\
  map product (getTrendingProducts m 10)
    = [coerce_row MoreSamples.rowA4; coerce_row Samples.rowA1] /\
  Sorted (fun a b => (f b <= f a)%Q) (map product (getTrendingProducts m 10)).
Proof.
  assert (H : forall p, In p [coerce_row Samples.rowA1; coerce_row MoreSamples.rowA4] ->
              impact p = JNum ((fun p => match impact p with JNum x => x | _ => 0%Q end) p))
    by (intros p [<-|[<-|[]]]; vm_compute; reflexivity).
  split; [exact H|split; [vm_compute; reflexivity|]].
  exact (proj2 (proj2 (trending_by_impact _ 10 _ H))).
Defined.

End StoreProps.

(** ** Facts about the name/brand storage *)

Module MemFacts.
Import JS Mem ViewFacts SortFacts.
Local Open Scope list_scope.

(** Every row of a [map] with [Math.random] comes from an element and a
    generator reachable from the first one. *)
Lemma map_rng_out {A B} (f : A -> Rng -> B * Rng) (Inv : Rng -> Prop) l g y :
  Inv g -> (forall x g0, Inv g0 -> Inv (snd (f x g0))) ->
  In y (fst (map_rng f l g)) -> exists x g0, In x l /\ Inv g0 /\ y = fst (f x g0).
Proof.
  intros Hg Hf. revert g Hg; induction l as [|x r IH]; intros g Hg Hy; simpl in Hy; [destruct Hy|].
  specialize (Hf x g Hg). destruct (f x g) as [b g1] eqn:F.
  specialize (IH g1 Hf). destruct (map_rng f r g1) as [bs g2]. simpl in Hy.
  destruct Hy as [<-|Hy].
  - exists x, g. rewrite F. repeat split; [left; reflexivity|exact Hg].
  - destruct (IH Hy) as [x' [g0 [Hx' [Hg0 E]]]]. exists x', g0.
    repeat split; [right; exact Hx'|exact Hg0|exact E].
Qed.

Lemma dedup_sound seen xs x : In x (dedup seen xs) -> In x xs /\ ~ In x seen.
Proof.
  revert seen; induction xs as [|y r IH]; intros seen H; simpl in H; [destruct H|].
  destruct (existsb (String.eqb y) seen) eqn:E.
  - destruct (IH _ H) as [H1 H2]. split; [right; exact H1|exact H2].
  - destruct H as [->|H].
    + split; [left; reflexivity|]. intro C.
      assert (existsb (String.eqb x) seen = true) as T; [|congruence].
      apply existsb_exists. exists x; split; [exact C|apply String.eqb_refl].
    + destruct (IH _ H) as [H1 H2]. split; [right; exact H1|].
      intro C; apply H2; right; exact C.
Qed.

Lemma dedup_NoDup seen xs : NoDup (dedup seen xs).
Proof.
  revert seen; induction xs as [|y r IH]; intro seen; simpl; [constructor|].
  destruct (existsb (String.eqb y) seen); [apply IH|].
  constructor; [|apply IH].
  intro C. apply dedup_sound in C as [_ C]. apply C; left; reflexivity.
Qed.

Lemma firstn_add {A} a b (l : list A) : firstn (a + b) l = firstn a l ++ firstn b (skipn a l).
Proof.
  revert l; induction a as [|a IH]; intro l; [reflexivity|].
  destruct l as [|x r]; simpl; [rewrite firstn_nil; reflexivity|].
  rewrite IH; reflexivity.
Qed.

Lemma slice_pages {A} (l : list A) off a b :
  slice l off (off + a) ++ slice l (off + a) (off + a + b) = slice l off (off + (a + b)).
Proof.
  unfold slice.
  replace (off + a - off)%nat with a by lia.
  replace (off + a + b - (off + a))%nat with b by lia.
  replace (off + (a + b) - off)%nat with (a + b)%nat by lia.
  rewrite firstn_add, skipn_skipn, Nat.add_comm. reflexivity.
Qed.

Lemma in_cond_filter {A} (b : bool) (f : A -> bool) l x :
  In x (if b then filter f l else l) -> In x l /\ (b = true -> f x = true).
Proof.
  destruct b; intro H.
  - apply filter_In in H as [H1 H2]. split; [exact H1|intros _; exact H2].
  - split; [exact H|discriminate].
Qed.

Lemma existsb_eqb_In s l : existsb (String.eqb s) l = true -> In s l.
Proof.
  intro H. apply existsb_exists in H as [x [Hx E]]. apply String.eqb_eq in E. subst; exact Hx.
Qed.

(** The filters of [getProducts] do not depend on the page. *)
Lemma getProducts_slice st filters :
  exists l, forall limit offset, getProducts st limit offset filters = slice l offset (offset + limit).
Proof. eexists; intros limit offset; unfold getProducts; reflexivity. Qed.

Lemma slice_length {A} (l : list A) off a : (length (slice l off (off + a)) <= a)%nat.
Proof. unfold slice. rewrite length_firstn. lia. Qed.

End MemFacts.

(** ** Properties of the name/brand storage: listing and views *)

Module MemProps.
Import JS Mem MemMore ViewFacts SortFacts MemFacts Samples.
Local Open Scope list_scope.

(** X7: [getProducts] with a filter bag returns store products only, and each
    filter whose value is truthy holds of every product returned. *)
Theorem getProducts_filters_hold (st : MemState) (limit offset : nat) (f : Filters)
  (p : Product) (Hp : In p (getProducts st limit offset (Some f))) :
  In p (products st) /\
  (str_truthy (f_category f) = true -> category p = String_ (f_category f)) /\
  (num_truthy (f_minPrice f) = true -> ge (parseFloat (price p)) (num_of (f_minPrice f)) = true) /\
  (num_truthy (f_maxPrice f) = true -> le (parseFloat (price p)) (num_of (f_maxPrice f)) = true) /\
  (num_truthy (f_minRating f) = true -> ge (parseFloat (rating p)) (num_of (f_minRating f)) = true) /\
  (str_truthy (f_location f) = true ->
     In (toLowerCase (String_ (f_location f))) (map fst (locationData p))).
Proof.
  unfold getProducts in Hp. cbv beta iota zeta in Hp. apply in_slice in Hp.
  apply in_cond_filter in Hp as [Hp H5].
  apply in_cond_filter in Hp as [Hp H4].
  apply in_cond_filter in Hp as [Hp H3].
  apply in_cond_filter in Hp as [Hp H2].
  apply in_cond_filter in Hp as [Hp H1].
  repeat split; auto.
  - intro T. apply String.eqb_eq, H1, T.
  - intro T. apply existsb_eqb_In, H5, T.
Qed.

(** A witness: with category "Home" and a minimum price of 10 the kettle
    (priced 20) is listed, and its price passes the minimum. *)
Lemma getProducts_filters_hold_witness :
  In kettle (getProducts (mkState [lamp; kettle] []) 50 0
                         (Some (mkFilters (Some "Home") (Some (of_Z 10)) None None None))) /\
  ge (parseFloat (price kettle)) (of_Z 10) = true.
Proof.
  assert (H : In kettle (getProducts (mkState [lamp; kettle] []) 50 0
                (Some (mkFilters (Some "Home") (Some (of_Z 10)) None None None))))
    by (vm_compute; left; reflexivity).
  split; [exact H|].
  destruct (getProducts_filters_hold _ _ _ _ _ H) as [_ [_ [Hmin _]]].
  exact (Hmin eq_refl).
Defined.

(** X8: [getProducts] pages: a page of [a] rows at [offset] followed by a page
    of [b] rows at [offset + a] is the page of [a + b] rows at [offset],
    and a page never holds more than its [limit]. *)
Theorem getProducts_pages (st : MemState) (filters : option Filters) (offset a b : nat) :
  getProducts st a offset filters ++ getProducts st b (offset + a) filters
    = getProducts st (a + b) offset filters /\
  (length (getProducts st a offset filters) <= a)%nat.
Proof.
  destruct (getProducts_slice st filters) as [l Hl]. rewrite !Hl.
  split; [apply slice_pages|apply slice_length].
Qed.

(** X9: [getTrendingProducts] returns the trending products of highest sales
    volume, at most [limit] of them, highest first. *)
Theorem trending_ranked_by_volume (st : MemState) (limit : nat) (g : Rng) :
  let ps := map product (fst (getTrendingProducts st limit g)) in
  length ps = Nat.min limit (length (filter trending (products st))) /\
  (forall p, In p ps -> In p (products st) /\ trending p = true) /\
  Sorted (fun a b => (salesVolume b <= salesVolume a)%Z) ps.
Proof.
  intro ps. unfold ps, getTrendingProducts.
  rewrite (map_rng_proj _ product (fun x => x)) by (intros; reflexivity).
  rewrite map_id, slice_0.
  set (l := filter trending (products st)).
  split; [|split].
  - rewrite length_firstn, (Permutation_length (sort_perm _ l)); reflexivity.
  - intros p Hp. apply in_firstn, (Permutation_in _ (sort_perm _ l)) in Hp.
    unfold l in Hp. apply filter_In in Hp. exact Hp.
  - apply Sorted_firstn, (sort_Sorted _ (fun _ => True)).
    + intros x y _ _ G. rewrite gt_sub_Z in G. apply negb_false_iff, Z.leb_le in G. exact G.
    + intros x y _ _ G. rewrite gt_sub_Z in G. apply negb_true_iff, Z.leb_gt in G. lia.
    + apply Forall_forall; auto.
Qed.

(** X10: [getUnderperformingProducts] returns the [limit] products of lowest
    sales volume (all of them when there are fewer), lowest first. *)
Theorem underperforming_ranked_by_volume (st : MemState) (limit : nat) (g : Rng) :
  let ps := map product (fst (getUnderperformingProducts st limit g)) in
  length ps = Nat.min limit (length (products st)) /\
  (forall p, In p ps -> In p (products st)) /\
  Sorted (fun a b => (salesVolume a <= salesVolume b)%Z) ps.
Proof.
  intro ps. unfold ps, getUnderperformingProducts.
  rewrite (map_rng_proj _ product (fun x => x)) by (intros; reflexivity).
  rewrite map_id, slice_0.
  split; [|split].
  - rewrite length_firstn, (Permutation_length (sort_perm _ _)); reflexivity.
  - intros p Hp. apply in_firstn, (Permutation_in _ (sort_perm _ _)) in Hp. exact Hp.
  - apply Sorted_firstn, (sort_Sorted _ (fun _ => True)).
    + intros x y _ _ G. rewrite gt_sub_Z in G. apply negb_false_iff, Z.leb_le in G. exact G.
    + intros x y _ _ G. rewrite gt_sub_Z in G. apply negb_true_iff, Z.leb_gt in G. lia.
    + apply Forall_forall; auto.
Qed.

(** X11: [getTopProfitProducts]: when every profit margin parses as a number,
    the result is the [limit] products of highest margin, highest first. *)
Theorem top_profit_ranked_by_margin (st : MemState) (limit : nat) (g : Rng)
  (pm : Product -> Q)
  (Hpm : forall p, In p (products st) -> parseFloat (profitMargin p) = JNum (pm p)) :
  let ps := map product (fst (getTopProfitProducts st limit g)) in
  length ps = Nat.min limit (length (products st)) /\
  (forall p, In p ps -> In p (products st)) /\
  Sorted (fun a b => (pm b <= pm a)%Q) ps.
Proof.
  intro ps. unfold ps, getTopProfitProducts.
  rewrite (map_rng_proj _ product (fun x => x)) by (intros; reflexivity).
  rewrite map_id, slice_0.
  split; [|split].
  - rewrite length_firstn, (Permutation_length (sort_perm _ _)); reflexivity.
  - intros p Hp. apply in_firstn, (Permutation_in _ (sort_perm _ _)) in Hp. exact Hp.
  - apply Sorted_firstn, (sort_Sorted _ (fun p => In p (products st))).
    + intros x y Hx Hy G. rewrite (Hpm x Hx), (Hpm y Hy), gt_sub_num in G.
      apply negb_false_iff, Qle_bool_iff in G. exact G.
    + intros x y Hx Hy G. rewrite (Hpm x Hx), (Hpm y Hy), gt_sub_num in G.
      apply negb_true_iff, Qle_bool_false in G. exact G.
    + apply Forall_forall; auto.
Qed.

(** A witness: margins 25 (lamp) and 10 (kettle). *)
Lemma top_profit_ranked_by_margin_witness :
  let pm := fun p => match parseFloat (profitMargin p) with JNum x => x | _ => 0%Q end in
  (forall p, In p [lamp; kettle] -> parseFloat (profitMargin p) = JNum (pm p)) /\
  Sorted (fun a b => (pm b <= pm a)%Q)
         (map product (fst (getTopProfitProducts (mkState [lamp; kettle] []) 10 rng0))).
Proof.
  assert (H : forall p, In p [lamp; kettle] -> parseFloat (profitMargin p) =
    JNum ((fun p => match parseFloat (profitMargin p) with JNum x => x | _ => 0%Q end) p))
    by (intros p [<-|[<-|[]]]; vm_compute; reflexivity).
  split; [exact H|].
  exact (proj2 (proj2 (top_profit_ranked_by_margin (mkState [lamp; kettle] []) 10 rng0 _ H))).
Defined.

(** X12: [getCategoryPerformance] has one row per category present in the store,
    and no other. *)
Theorem category_rows_distinct (st : MemState) (g : Rng) :
  let cs := map cp_category (fst (getCategoryPerformance st g)) in
  NoDup cs /\ (forall c, In c cs <-> In c (map category (products st))).
Proof.
  intro cs. unfold cs, getCategoryPerformance.
  rewrite (map_rng_proj _ cp_category (fun c => c)) by (intros; reflexivity).
  rewrite map_id. split; [apply dedup_NoDup|].
  intro c; split; intro H.
  - apply dedup_sound in H as [H _]; exact H.
  - destruct (dedup_in [] _ c H) as [[]|H']; exact H'.
Qed.

(** X13: The [profitMargin] of a [getCategoryPerformance] row, when every margin
    parses as a number, is the mean of its category's margins: its
    category is never empty, so it is never [NaN]. *)
Theorem category_margin_is_mean (st : MemState) (g : Rng) (pm : Product -> Q)
  (Hpm : forall p, In p (products st) -> parseFloat (profitMargin p) = JNum (pm p))
  (e : CategoryPerformance) (He : In e (fst (getCategoryPerformance st g))) :
  filter (fun p => String.eqb (category p) (cp_category e)) (products st) <> [] /\
  js_eq (cp_profitMargin e)
    (JNum (fold_right Qplus 0
             (map pm (filter (fun p => String.eqb (category p) (cp_category e)) (products st)))
           / inject_Z (Z.of_nat
               (length (filter (fun p => String.eqb (category p) (cp_category e)) (products st)))))).
Proof.
  unfold getCategoryPerformance in He.
  destruct (map_rng_out _ (fun _ => True) _ g e I (fun _ _ _ => I) He)
    as [c [g0 [Hc [_ ->]]]].
  destruct (random g0) as [r g1]. simpl.
  apply dedup_sound in Hc as [Hc _]. apply in_map_iff in Hc as [p0 [Ep0 Hp0]].
  set (l := filter _ (products st)).
  assert (Hl : l <> []).
  { intro E. assert (In p0 l) as C; [|rewrite E in C; destruct C].
    apply filter_In; split; [exact Hp0|]. apply String.eqb_eq; exact Ep0. }
  split; [exact Hl|].
  assert (Hm : map (fun p => parseFloat (profitMargin p)) l = map JNum (map pm l)).
  { rewrite map_map. apply map_ext_in. intros p Hp. apply Hpm.
    unfold l in Hp. apply filter_In in Hp. exact (proj1 Hp). }
  unfold sum. rewrite (sum_num _ l (map pm l) 0 Hm).
  assert (Hn : Qeq_bool (inject_Z (Z.of_nat (length l))) 0 = false).
  { destruct l as [|x r']; [congruence|]. apply not_true_iff_false. intro H.
    apply Qeq_bool_eq in H. unfold Qeq in H. simpl in H. lia. }
  unfold div, of_Z. rewrite Hn. simpl. apply Qmult_comp; [|reflexivity].
  rewrite fold_Qplus; ring.
Qed.

(** A witness: the [Home] row of lamp (25) and kettle (10) has margin 35/2. *)
Lemma category_margin_is_mean_witness :
  let st := mkState [lamp; kettle] [] in
  let pm := fun p => match parseFloat (profitMargin p) with JNum x => x | _ => 0%Q end in
  let e := hd (mkCP "" (JNum 0) (JNum 0) (JNum 0) (JNum 0))
              (fst (getCategoryPerformance st rng0)) in
  (forall p, In p (products st) -> parseFloat (profitMargin p) = JNum (pm p)) /\
  In e (fst (getCategoryPerformance st rng0)) /\
  js_eq (cp_profitMargin e)
    (JNum (fold_right Qplus 0
             (map pm (filter (fun p => String.eqb (category p) (cp_category e)) (products st)))
           / inject_Z (Z.of_nat
               (length (filter (fun p => String.eqb (category p) (cp_category e)) (products st)))))).
Proof.
  assert (H : forall p, In p (products (mkState [lamp; kettle] [])) -> parseFloat (profitMargin p) =
    JNum ((fun p => match parseFloat (profitMargin p) with JNum x => x | _ => 0%Q end) p))
    by (intros p [<-|[<-|[]]]; vm_compute; reflexivity).
  assert (He : In (hd (mkCP "" (JNum 0) (JNum 0) (JNum 0) (JNum 0))
                      (fst (getCategoryPerformance (mkState [lamp; kettle] []) rng0)))
                  (fst (getCategoryPerformance (mkState [lamp; kettle] []) rng0)))
    by (vm_compute; left; reflexivity).
  split; [exact H|split; [exact He|]].
  exact (proj2 (category_margin_is_mean _ rng0 _ H _ He)).
Defined.

End MemProps.

(** ** Facts about lower-casing, random ranges and appended rows *)

Module MoreFacts.
Import JS Mem MemMore SortFacts StoreFacts.
Local Open Scope list_scope.





(** [Math.floor(r * k + a)] for a draw [0 <= r < 1] lies in [[a, a + k)]. *)
Lemma floor_range (r : Q) (a k : Z) :
  0 <= r < 1 -> (0 < k)%Z ->
  (a <= Qfloor (r * inject_Z k + inject_Z a) < a + k)%Z.
Proof.
  intros [R0 R1] K.
  assert (Kq : 0 < inject_Z k) by (rewrite Zlt_Qlt in K; exact K).
  assert (L : inject_Z a <= r * inject_Z k + inject_Z a).
  { assert (0 <= r * inject_Z k) by (apply Qmult_le_0_compat; lra). lra. }
  assert (U : r * inject_Z k + inject_Z a < inject_Z (a + k)).
  { rewrite inject_Z_plus.
    assert (r * inject_Z k < 1 * inject_Z k) by (apply Qmult_lt_r; assumption). lra. }
  split.
  - rewrite <- (Qfloor_Z a) at 1. apply Qfloor_resp_le, L.
  - rewrite Zlt_Qlt. eapply Qle_lt_trans; [apply Qfloor_le|exact U].
Qed.

(** A message newer than all of a list goes first once sorted newest first. *)
Lemma sort_newest_last (l : list ChatMessage) (m : ChatMessage) :
  (forall x, In x l -> (timestamp x < timestamp m)%Z) ->
  sort (fun a b => sub (of_Z (timestamp b)) (of_Z (timestamp a))) (l ++ [m])
  = m :: sort (fun a b => sub (of_Z (timestamp b)) (of_Z (timestamp a))) l.
Proof.
  induction l as [|x r IH]; intro H; [reflexivity|].
  cbn [app sort]. rewrite IH by (intros y Hy; apply H; right; exact Hy).
  cbn [insert_sorted]. rewrite gt_sub_Z.
  replace (timestamp m <=? timestamp x)%Z with false; [reflexivity|].
  symmetry; apply Z.leb_gt, H; left; reflexivity.
Qed.

End MoreFacts.

(** ** Properties of the name/brand storage: search, geography, chat, users *)

Module MemProps2.
Import JS Mem MemMore ViewFacts SortFacts StoreFacts MemFacts MoreFacts.
Local Open Scope list_scope.


(** X15: [getGeographicData] returns the six fixed locations in order; when the
    draws of [Math.random] lie in [[0, 1)], every row has integer [sales] in
    [[10000, 59999]], integer [revenue] in [[200000, 1199999]] and a
    [conversionRate] in [[2, 12)]. *)
Theorem geographic_data_ranges (g : Rng) (Hg : forall n, (0 <= draws g n < 1)%Q) :
  map g_location (fst (getGeographicData g))
    = ["Mumbai"; "Delhi"; "Bangalore"; "Chennai"; "Kolkata"; "Pune"] /\
  (forall d, In d (fst (getGeographicData g)) ->
     exists s v c,
       g_sales d = of_Z s /\ (10000 <= s <= 59999)%Z /\
       g_revenue d = of_Z v /\ (200000 <= v <= 1199999)%Z /\
       conversionRate d = JNum c /\ (2 <= c < 12)%Q).
Proof.
  split.
  - unfold getGeographicData.
    rewrite (map_rng_proj _ g_location (fun x => x)) by (intros; reflexivity).
    reflexivity.
  - intros d Hd. unfold getGeographicData in Hd.
    match type of Hd with
    | In _ (fst (map_rng ?f ?l _)) =>
        destruct (map_rng_out f (fun g0 => forall n, (0 <= draws g0 n < 1)%Q) l g d Hg
                    (fun x g0 H n => H n) Hd) as [x [g0 [_ [H0 ->]]]]
    end.
    simpl.
    set (r1 := draws g0 (taken g0)).
    set (r2 := draws g0 (S (taken g0))).
    set (r3 := draws g0 (S (S (taken g0)))).
    pose proof (floor_range r1 10000 50000 (H0 _) eq_refl) as F1.
    pose proof (floor_range r2 200000 1000000 (H0 _) eq_refl) as F2.
    exists (Qfloor (r1 * inject_Z 50000 + inject_Z 10000)),
           (Qfloor (r2 * inject_Z 1000000 + inject_Z 200000)),
           (r3 * inject_Z 10 + inject_Z 2).
    repeat split; try reflexivity; try lia.
    + destruct (H0 (S (S (taken g0)))) as [A _]. fold r3 in A.
      unfold inject_Z. lra.
    + destruct (H0 (S (S (taken g0)))) as [_ B]. fold r3 in B.
      unfold inject_Z. lra.
Qed.

(** A witness: a generator that always draws 1/2. *)
Lemma geographic_data_ranges_witness :
  (forall n, (0 <= draws MoreSamples.rng_half n < 1)%Q) /\
  map g_location (fst (getGeographicData MoreSamples.rng_half))
    = ["Mumbai"; "Delhi"; "Bangalore"; "Chennai"; "Kolkata"; "Pune"] /\
  (forall d, In d (fst (getGeographicData MoreSamples.rng_half)) ->
     exists s v c,
       g_sales d = of_Z s /\ (10000 <= s <= 59999)%Z /\
       g_revenue d = of_Z v /\ (200000 <= v <= 1199999)%Z /\
       conversionRate d = JNum c /\ (2 <= c < 12)%Q).
Proof.
  assert (H : forall n, (0 <= draws MoreSamples.rng_half n < 1)%Q)
    by (intro n; split; unfold Qle, Qlt; simpl; lia).
  split; [exact H|]. exact (geographic_data_ranges _ H).
Defined.


(** X17: A message created for a user at a time later than all of that user's
    messages heads the user's history, followed by the history as it was. *)
Theorem chat_create_then_get (msgs : list ChatMessage) (ins : InsertChatMessage)
  (id : string) (now : Z) (uid : string) (k : nat)
  (Hu : ic_userId ins = Some uid) (Hne : uid <> "")
  (Hnew : forall m, In m msgs -> userId m = Some uid -> (timestamp m < now)%Z) :
  getChatMessages (snd (createChatMessage msgs ins id now)) uid (S k)
  = fst (createChatMessage msgs ins id now) :: getChatMessages msgs uid k.
Proof.
  unfold createChatMessage, getChatMessages. simpl snd. simpl fst. rewrite Hu.
  assert (T : str_truthy (Some uid) = true) by (destruct uid; [congruence|reflexivity]).
  rewrite T, filter_app. simpl filter at 2.
  rewrite String.eqb_refl.
  rewrite sort_newest_last.
  - rewrite !slice_0. reflexivity.
  - intros x Hx. apply filter_In in Hx as [Hx K].
    apply CsvFacts.key_eqb_true in K. exact (Hnew x Hx K).
Qed.

(** A witness: a message at time 200 after one at time 100. *)
Lemma chat_create_then_get_witness :
  let ins := MoreSamples.ask in
  ic_userId ins = Some "u1" /\ "u1" <> "" /\
  (forall m, In m [MoreSamples.msg_old] -> userId m = Some "u1" -> (timestamp m < 200)%Z) /\
  getChatMessages (snd (createChatMessage [MoreSamples.msg_old] ins "m2" 200)) "u1" 2
  = fst (createChatMessage [MoreSamples.msg_old] ins "m2" 200)
    :: getChatMessages [MoreSamples.msg_old] "u1" 1.
Proof.
  assert (H1 : ic_userId MoreSamples.ask = Some "u1") by reflexivity.
  assert (H2 : "u1" <> "") by discriminate.
  assert (H3 : forall m, In m [MoreSamples.msg_old] -> userId m = Some "u1" ->
                         (timestamp m < 200)%Z)
    by (intros m [<-|[]] _; simpl; lia).
  split; [exact H1|split; [exact H2|split; [exact H3|]]].
  exact (chat_create_then_get _ _ _ _ _ 1 H1 H2 H3).
Defined.

(** X18: Signing up then logging in with the same email and password returns
    the account just created, which was appended under its fresh id. *)
Theorem signup_then_login (us : list User) (iu : InsertUser) (id now : string)
  (u : User) (us' : list User)
  (H : signup us iu id now = (AuthOk u, us')) :
  login us' (i_email iu) (i_password iu) = AuthOk u /\ us' = us ++ [u] /\ u_id u = id.
Proof.
  unfold signup in H. destruct (getUserByEmail us (i_email iu)) eqn:G; [discriminate|].
  simpl in H. injection H as <- <-.
  unfold login, getUserByEmail in *. rewrite find_app, G. simpl.
  rewrite !String.eqb_refl. repeat split.
Qed.

(** A witness: Ada signs up on an empty store and logs in. *)
Lemma signup_then_login_witness :
  let u := fst (createUser [] MoreSamples.ada "u1" "2024-01-01") in
  signup [] MoreSamples.ada "u1" "2024-01-01" = (AuthOk u, [u]) /\
  login [u] (i_email MoreSamples.ada) (i_password MoreSamples.ada) = AuthOk u.
Proof.
  assert (H : signup [] MoreSamples.ada "u1" "2024-01-01"
              = (AuthOk (fst (createUser [] MoreSamples.ada "u1" "2024-01-01")),
                 [fst (createUser [] MoreSamples.ada "u1" "2024-01-01")]))
    by reflexivity.
  split; [exact H|]. exact (proj1 (signup_then_login _ _ _ _ _ _ H)).
Defined.

(** X19: Signup keeps account emails unique: an email already registered is
    refused with status 400 and the accounts are left as they were. *)
Theorem signup_keeps_emails_unique (us : list User) (iu : InsertUser) (id now : string)
  (Hu : NoDup (map email us)) :
  NoDup (map email (snd (signup us iu id now))) /\
  (In (i_email iu) (map email us) ->
   signup us iu id now = (AuthError 400 "User already exists", us)).
Proof.
  unfold signup. destruct (getUserByEmail us (i_email iu)) eqn:G.
  - split; [exact Hu|reflexivity].
  - assert (N : ~ In (i_email iu) (map email us)).
    { intro C. apply in_map_iff in C as [u0 [E Hu0]].
      unfold getUserByEmail in G. pose proof (find_none _ _ G u0 Hu0) as F.
      cbv beta in F. rewrite E, String.eqb_refl in F. discriminate. }
    split; [|intro C; contradiction].
    simpl. rewrite map_app. simpl.
    apply (Permutation_NoDup (Permutation_cons_append _ _)). constructor; assumption.
Qed.

(** A witness: Ada signing up a second time is refused. *)
Lemma signup_keeps_emails_unique_witness :
  let us := [fst (createUser [] MoreSamples.ada "u1" "2024-01-01")] in
  NoDup (map email us) /\
  signup us MoreSamples.ada "u2" "2024-01-02" = (AuthError 400 "User already exists", us).
Proof.
  assert (H : NoDup (map email [fst (createUser [] MoreSamples.ada "u1" "2024-01-01")]))
    by (simpl; constructor; [intros []|constructor]).
  split; [exact H|].
  apply (proj2 (signup_keeps_emails_unique _ MoreSamples.ada "u2" "2024-01-02" H)).
  simpl; left; reflexivity.
Defined.

End MemProps2.
